(** * RhizoCam backend (src/backend/main.py): a shallow embedding

    The development follows the layout of [main.py]: Python values and
    string primitives first, then the outbound calls, the XML record
    parser, the full-text scraper, the search endpoint and the prompt
    assembly of the analysis endpoint, and finally the properties.

    Python [str] is a sequence of Unicode code points, so a string is a
    list of code points here; [lit] turns a literal of the source into
    one. *)

From Stdlib Require Import String Ascii ZArith NArith List Lia Bool DecimalString.
From stdpp Require Import base decidable option list countable gmap.

Open Scope Z_scope.

(** ** Python values *)

Module Py.

Abbreviation char := N (only parsing).
Abbreviation str := (list N) (only parsing).

Definition lit (s : string) : str :=
  List.map N_of_ascii (list_ascii_of_string s).

(** Exceptions the modelled code can raise. *)
Inductive exn : Type :=
  | AttributeError
  | IndexError
  | KeyError
  | TypeError
  | ValueError
  | ParseError
  | HTTPException (status_code : Z).

(** The outcome of evaluating a Python expression or call. *)
Inductive outcome (A : Type) : Type :=
  | Returned (a : A)
  | Raised (e : exn).
Arguments Returned {A} a.
Arguments Raised {A} e.

Definition obind {A B} (m : outcome A) (k : A -> outcome B) : outcome B :=
  match m with
  | Returned a => k a
  | Raised e => Raised e
  end.

Notation "'let!' x ':=' m 'in' k" := (obind m (fun x => k))
  (at level 10, x name, m at level 100, k at level 200,
   format "'[v' 'let!'  x  ':='  m  'in' '/' k ']'").

(** [str.isspace] on one code point: the characters CPython's
    [Py_UNICODE_ISSPACE] accepts.  [str.strip], [str.split] and the
    regular expression class [\s] (on [str] patterns) all use it. *)
Definition isspace (c : char) : bool :=
  ((9 <=? c) && (c <=? 13) || (28 <=? c) && (c <=? 32)
   || (c =? 133) || (c =? 160) || (c =? 5760)
   || (8192 <=? c) && (c <=? 8202)
   || (c =? 8232) || (c =? 8233) || (c =? 8239) || (c =? 8287)
   || (c =? 12288))%N.

Definition SP : char := 32%N.

(** [s.lstrip()], [s.rstrip()], [s.strip()] *)
Fixpoint lstrip (s : str) : str :=
  match s with
  | [] => []
  | c :: r => if isspace c then lstrip r else s
  end.

Fixpoint rstrip (s : str) : str :=
  match s with
  | [] => []
  | c :: r =>
      match rstrip r with
      | [] => if isspace c then [] else [c]
      | r' => c :: r'
      end
  end.

Definition strip (s : str) : str := rstrip (lstrip s).

(** [re.sub(r'\s+', ' ', s)]: every maximal run of whitespace becomes one
    space.  [in_run] records that the previous character belonged to the
    run being replaced. *)
Fixpoint sub_ws (in_run : bool) (s : str) : str :=
  match s with
  | [] => []
  | c :: r =>
      if isspace c
      then (if in_run then sub_ws true r else SP :: sub_ws true r)
      else c :: sub_ws false r
  end.

Definition re_sub_ws (s : str) : str := sub_ws false s.

(** [s.split()]: the maximal runs of non-whitespace. [cur] is the token
    being read. *)
Fixpoint split_from (cur : str) (s : str) : list str :=
  match s with
  | [] => match cur with [] => [] | _ => [cur] end
  | c :: r =>
      if isspace c
      then match cur with
           | [] => split_from [] r
           | _ => cur :: split_from [] r
           end
      else split_from (cur ++ [c]) r
  end.

Definition split (s : str) : list str := split_from [] s.

(** [s.splitlines()]: the line boundaries of [str.splitlines]; a carriage
    return followed by a line feed is one boundary. *)
Definition is_linebreak (c : char) : bool :=
  ((10 <=? c) && (c <=? 13) || (28 <=? c) && (c <=? 30)
   || (c =? 133) || (c =? 8232) || (c =? 8233))%N.

Fixpoint splitlines_from (after_cr : bool) (cur : str) (s : str) : list str :=
  match s with
  | [] => match cur with [] => [] | _ => [cur] end
  | c :: r =>
      if after_cr && (c =? 10)%N then splitlines_from false cur r
      else if is_linebreak c then cur :: splitlines_from (c =? 13)%N [] r
      else splitlines_from false (cur ++ [c]) r
  end.

Definition splitlines (s : str) : list str := splitlines_from false [] s.

(** [sep.join(parts)] *)
Fixpoint join (sep : str) (parts : list str) : str :=
  match parts with
  | [] => []
  | [p] => p
  | p :: rest => p ++ sep ++ join sep rest
  end.

(** [l[i]] for [i >= 0] and [l[-1]]: both raise [IndexError] out of range. *)
Definition index {A} (l : list A) (i : nat) : outcome A :=
  match nth_error l i with
  | Some x => Returned x
  | None => Raised IndexError
  end.

Definition index_last {A} (l : list A) : outcome A :=
  match rev l with
  | x :: _ => Returned x
  | [] => Raised IndexError
  end.

(** Slices [l[a:b]] and [l[:b]]: a negative bound counts from the end, and
    both bounds are clamped to [0 .. len(l)]. *)
Definition clamp (len i : Z) : Z :=
  if i <? 0 then Z.max 0 (i + len) else Z.min i len.

Definition slice {A} (l : list A) (a b : Z) : list A :=
  let len := Z.of_nat (length l) in
  let a' := clamp len a in
  let b' := clamp len b in
  firstn (Z.to_nat (b' - a')) (skipn (Z.to_nat a') l).

Definition slice_to {A} (l : list A) (b : Z) : list A := slice l 0 b.

(** [range(start, stop, step)]: a zero step raises [ValueError]. *)
Definition range (start stop step : Z) : outcome (list Z) :=
  if step =? 0 then Raised ValueError
  else
    let n := if 0 <? step
             then (if start <? stop then (stop - start - 1) / step + 1 else 0)
             else (if stop <? start then (start - stop - 1) / (- step) + 1 else 0) in
    Returned (List.map (fun k => start + Z.of_nat k * step) (seq 0 (Z.to_nat n))).

(** [str(n)] for a natural number: its decimal digits. *)
Definition str_of_nat (n : nat) : str :=
  lit (NilEmpty.string_of_uint (Nat.to_uint n)).

(** Truth value of a string: empty is false. *)
Definition truthy (s : str) : bool :=
  match s with [] => false | _ => true end.

(** [a or b] on strings *)
Definition or_else (a b : str) : str := if truthy a then a else b.

(** [needle in s] on strings *)
Fixpoint is_prefix (p s : str) : bool :=
  match p, s with
  | [], _ => true
  | _ :: _, [] => false
  | a :: p', b :: s' => (a =? b)%N && is_prefix p' s'
  end.

Fixpoint contains (needle s : str) : bool :=
  is_prefix needle s ||
  match s with
  | [] => false
  | _ :: r => contains needle r
  end.

End Py.

Import Py.

(** ** xml.etree.ElementTree *)

Module ET.

(** An [Element]: tag, attributes, text and children. *)
#[warnings="-register-all"]
Inductive Element : Type :=
  mkElement (tag : str) (attrib : list (str * str)) (text : option str)
            (children : list Element).

Definition tag (e : Element) : str := let (t, _, _, _) := e in t.
Definition attrib (e : Element) : list (str * str) := let (_, a, _, _) := e in a.
Definition text (e : Element) : option str := let (_, _, t, _) := e in t.
Definition children (e : Element) : list Element := let (_, _, _, c) := e in c.

(** The proper descendants of an element in document order
    ([elem.iter()] without [elem] itself). *)
Fixpoint descendants (e : Element) : list Element :=
  match e with
  | mkElement _ _ _ cs => flat_map (fun c => c :: descendants c) cs
  end.

(** [elem.get(key)] *)
Fixpoint get (a : list (str * str)) (key : str) : option str :=
  match a with
  | [] => None
  | (k, v) :: r => if bool_decide (k = key) then Some v else get r key
  end.

(** The ElementPath steps the program uses: [tag] (a child), [//tag]
    (a descendant) and [[@key='value']] (a filter on the current
    selection). The leading [.] of a path selects the element itself. *)
Inductive step : Type :=
  | Child (t : str)
  | Descendant (t : str)
  | AttrEq (key value : str).

Definition has_tag (t : str) (e : Element) : bool := bool_decide (tag e = t).

Definition select (st : step) (ctx : list Element) : list Element :=
  match st with
  | Child t => flat_map (fun e => List.filter (has_tag t) (children e)) ctx
  | Descendant t => flat_map (fun e => List.filter (has_tag t) (descendants e)) ctx
  | AttrEq k v =>
      List.filter (fun e => bool_decide (get (attrib e) k = Some v)) ctx
  end.

(** [elem.findall(path)] and [elem.find(path)] *)
Definition findall (e : Element) (path : list step) : list Element :=
  fold_left (fun ctx st => select st ctx) path [e].

Definition find (e : Element) (path : list step) : option Element :=
  hd_error (findall e path).

End ET.

Import ET.

(** ** Pydantic models *)

Record Article : Type := mkArticle {
  pmid : str;
  title : str;
  first_author : str;
  authors : str;
  year : str;
  journal : option str;
  abstract : str;
  pmcid : option str;
  full_text : option str
}.

(** [Article(pmid=..., ..., pmcid=...)]: [full_text] takes its default. *)
Definition new_Article (pmid title first_author authors year journal abstract : str)
    (pmcid : option str) : Article :=
  {| pmid := pmid; title := title; first_author := first_author;
     authors := authors; year := year; journal := Some journal;
     abstract := abstract; pmcid := pmcid;
     full_text := Some (lit "NOT_ATTEMPTED") |}.

Definition set_full_text (a : Article) (t : str) : Article :=
  {| pmid := pmid a; title := title a; first_author := first_author a;
     authors := authors a; year := year a; journal := journal a;
     abstract := abstract a; pmcid := pmcid a; full_text := Some t |}.

Record SearchRequest : Type := mkSearchRequest {
  query : str;
  start_date : str;
  stop_date : str;
  limit : Z;
  chunk_size : Z;
  exclude_preprints : bool;
  free_full_text_only : bool;
  fetch_full_text : bool
}.

(** ** parse_article_xml *)

(** The paths of [parse_article_xml]. *)
Definition p_PMID := [Child (lit "MedlineCitation"); Child (lit "PMID")].
Definition p_ArticleTitle :=
  [Child (lit "MedlineCitation"); Child (lit "Article"); Child (lit "ArticleTitle")].
Definition p_Author :=
  [Child (lit "MedlineCitation"); Child (lit "Article");
   Child (lit "AuthorList"); Child (lit "Author")].
Definition p_ForeName := [Child (lit "ForeName")].
Definition p_LastName := [Child (lit "LastName")].
Definition p_JournalTitle :=
  [Child (lit "MedlineCitation"); Child (lit "Article");
   Child (lit "Journal"); Child (lit "Title")].
Definition p_AbstractText :=
  [Child (lit "MedlineCitation"); Child (lit "Article");
   Child (lit "Abstract"); Child (lit "AbstractText")].
Definition p_PubDate :=
  [Child (lit "MedlineCitation"); Child (lit "Article"); Child (lit "Journal");
   Child (lit "JournalIssue"); Child (lit "PubDate")].
Definition p_Year := [Child (lit "Year")].
Definition p_ArticleDateYear := [Descendant (lit "ArticleDate"); Child (lit "Year")].
Definition p_pmc :=
  [Child (lit "PubmedData"); Child (lit "ArticleIdList");
   Child (lit "ArticleId"); AttrEq (lit "IdType") (lit "pmc")].

(** [get_text(element, path)]. [element] may be [None] (the result of a
    [find]); calling [.find] on it raises [AttributeError]. *)
Definition get_text (element : option Element) (path : list step) : outcome str :=
  match element with
  | None => Raised AttributeError
  | Some el =>
      match find el path with
      | Some node =>
          match text node with
          | Some t => Returned (re_sub_ws (strip t))
          | None => Returned []
          end
      | None => Returned []
      end
  end.

(** The comprehension building [authors_list]. *)
Fixpoint authors_of (l : list Element) : outcome (list str) :=
  match l with
  | [] => Returned []
  | a :: r =>
      let! keep := get_text (Some a) p_LastName in
      if truthy keep then
        let! fore := get_text (Some a) p_ForeName in
        let! last := get_text (Some a) p_LastName in
        let! rest := authors_of r in
        Returned (strip (or_else fore [] ++ lit " " ++ last) :: rest)
      else authors_of r
  end.

(** The expression for [first_author_display] when [authors_list] is not
    empty. *)
Definition first_author_of (author0 : str) : outcome str :=
  let parts := split author0 in
  let! long := (if (1 <? length parts)%nat
                then let! p0 := index parts 0 in Returned (truthy p0)
                else Returned false) in
  if long then
    let! pl := index_last parts in
    let! p0 := index parts 0 in
    let! c := index p0 0 in
    Returned (pl ++ lit ", " ++ [c] ++ lit ".")
  else if (length parts =? 1)%nat then index parts 0
  else Returned (lit "NO_AUTHOR").

(** The texts joined into the abstract: [node.text] of every
    [AbstractText] whose text is not empty. *)
Fixpoint abstract_texts (l : list Element) : list str :=
  match l with
  | [] => []
  | node :: r =>
      match text node with
      | Some t => if truthy t then t :: abstract_texts r else abstract_texts r
      | None => abstract_texts r
      end
  end.

(** The body of the [try] block. *)
Definition parse_fields (x : Element) : outcome (option Article) :=
  let! pmid := get_text (Some x) p_PMID in
  if negb (truthy pmid) then Returned None else
  let! title0 := get_text (Some x) p_ArticleTitle in
  let title := or_else title0 (lit "NO_TITLE") in
  let! authors_list := authors_of (findall x p_Author) in
  let authors_str := or_else (join (lit ", ") authors_list) (lit "NO_AUTHORS") in
  let! first_author_display :=
    (match authors_list with
     | [] => Returned (lit "NO_AUTHOR")
     | author0 :: _ => first_author_of author0
     end) in
  let! journal0 := get_text (Some x) p_JournalTitle in
  let journal := or_else journal0 (lit "N/A") in
  let abstract :=
    or_else (strip (join (lit " ") (abstract_texts (findall x p_AbstractText))))
            (lit "NO_ABSTRACT") in
  let! year0 := get_text (find x p_PubDate) p_Year in
  let! year :=
    (if truthy year0 then Returned year0
     else let! year1 := get_text (Some x) p_ArticleDateYear in
          Returned (or_else year1 (lit "NO_YEAR"))) in
  let pmcid_node := find x p_pmc in
  let pmcid := match pmcid_node with
               | Some n => text n
               | None => Some []
               end in
  Returned (Some (new_Article pmid title first_author_display authors_str
                              year journal abstract pmcid)).

(** [try: ... except Exception as e: log; return None].  Every exception
    of [exn] derives from [Exception]. *)
Definition parse_article_xml (x : Element) : outcome (option Article) :=
  match parse_fields x with
  | Returned r => Returned r
  | Raised _ => Returned None
  end.

(** ** bs4: the parsed page *)

Module BS.

(** A node of the tree [BeautifulSoup(response.content, 'lxml')] builds:
    a string, or a tag with its attributes and contents. *)
#[warnings="-register-all"]
Inductive node : Type :=
  | NavigableString (s : str)
  | Tag (name : str) (attrs : list (str * str)) (contents : list node).

(** Proper descendants in document order. *)
Fixpoint descendants (n : node) : list node :=
  match n with
  | NavigableString _ => []
  | Tag _ _ cs => flat_map (fun c => c :: descendants c) cs
  end.

Definition attr_is (key value : str) (n : node) : bool :=
  match n with
  | NavigableString _ => false
  | Tag _ attrs _ => bool_decide (ET.get attrs key = Some value)
  end.

Definition is_tag (name : str) (n : node) : bool :=
  match n with
  | NavigableString _ => false
  | Tag nm _ _ => bool_decide (nm = name)
  end.

(** [soup.find(attrs={key: value})]: the first matching descendant. *)
Definition find_attrs (soup : node) (key value : str) : option node :=
  hd_error (List.filter (attr_is key value) (descendants soup)).

(** [body.find_all(name)] *)
Definition find_all (body : node) (name : str) : list node :=
  List.filter (is_tag name) (descendants body).

(** [p.get_text(strip=True)]: the stripped strings below [p], empty ones
    dropped, concatenated. *)
Fixpoint stripped_strings (l : list node) : list str :=
  match l with
  | [] => []
  | NavigableString s :: r =>
      if truthy (strip s) then strip s :: stripped_strings r
      else stripped_strings r
  | Tag _ _ _ :: r => stripped_strings r
  end.

Definition get_text_strip (p : node) : str :=
  join [] (stripped_strings (descendants p)).

End BS.

(** ** The outside world *)

(** The result of an outbound [requests] call followed by
    [raise_for_status()] (and, for the search and the generative service,
    [response.json()], whose decoding error is a [RequestException] too): a
    [RequestException] whose [str(e)] is [msg], or the decoded body. *)
Inductive response (A : Type) : Type :=
  | RequestException (msg : str)
  | Body (b : A).
Arguments RequestException {A} msg.
Arguments Body {A} b.

(** A decoded JSON document, as [response.json()] returns it: [None],
    a [bool], a number, a [str], a [list] or a [dict].  [n] names the value
    of a number; numbers with a fraction behave like the integers in this
    program (not a [dict], without a length, hashable, not a [str]). *)
#[warnings="-register-all"]
Inductive json : Type :=
  | JNull
  | JBool (b : bool)
  | JNumber (n : Z)
  | JString (s : str)
  | JArray (items : list json)
  | JObject (members : list (str * json)).

(** The value of [key] in a [dict] read from JSON: when a key is written
    twice the last value stands. *)
Fixpoint lookup_key (members : list (str * json)) (key : str) : option json :=
  match members with
  | [] => None
  | (k, v) :: rest =>
      match lookup_key rest key with
      | Some v' => Some v'
      | None => if bool_decide (k = key) then Some v else None
      end
  end.

(** [x.get(key, default)]: only a [dict] has [get]. *)
Definition dict_get (x : json) (key : str) (default : json) : outcome json :=
  match x with
  | JObject members =>
      Returned (match lookup_key members key with Some v => v | None => default end)
  | _ => Raised AttributeError
  end.

(** [x[key]] for a string [key] *)
Definition subscript (x : json) (key : str) : outcome json :=
  match x with
  | JObject members =>
      match lookup_key members key with
      | Some v => Returned v
      | None => Raised KeyError
      end
  | _ => Raised TypeError
  end.

(** [x[0]] *)
Definition subscript0 (x : json) : outcome json :=
  match x with
  | JArray (v :: _) => Returned v
  | JArray [] => Raised IndexError
  | JString (c :: _) => Returned (JString [c])
  | JString [] => Raised IndexError
  | JObject _ => Raised KeyError
  | _ => Raised TypeError
  end.

(** [len(x)] *)
Definition py_len (x : json) : outcome nat :=
  match x with
  | JString s => Returned (length s)
  | JArray items => Returned (length items)
  | JObject members => Returned (length members)
  | _ => Raised TypeError
  end.

(** What iterating over [x] gives: the items of a [list], the characters
    of a [str], the keys of a [dict]. *)
Definition py_iter (x : json) : outcome (list json) :=
  match x with
  | JArray items => Returned items
  | JString s => Returned (List.map (fun c => JString [c]) s)
  | JObject members => Returned (List.map (fun kv => JString (fst kv)) members)
  | _ => Raised TypeError
  end.

(** The hashable values, up to Python's equality: [True == 1] and
    [False == 0], so a [bool] is its number. *)
Inductive atom : Type :=
  | ANone
  | ANumber (n : Z)
  | AStr (s : str).

#[global] Instance atom_eq_dec : EqDecision atom.
Proof. solve_decision. Defined.

Definition atom_code (a : atom) : unit + (Z + list N) :=
  match a with
  | ANone => inl tt
  | ANumber n => inr (inl n)
  | AStr s => inr (inr s)
  end.

Definition atom_decode (c : unit + (Z + list N)) : atom :=
  match c with
  | inl _ => ANone
  | inr (inl n) => ANumber n
  | inr (inr s) => AStr s
  end.

#[global] Instance atom_countable : Countable atom.
Proof.
  refine (inj_countable' atom_code atom_decode _). intros a. now destruct a.
Defined.

(** Hashing a value: a [list] or a [dict] is unhashable. *)
Definition atom_of (x : json) : outcome atom :=
  match x with
  | JNull => Returned ANone
  | JBool b => Returned (ANumber (if b then 1 else 0))
  | JNumber n => Returned (ANumber n)
  | JString s => Returned (AStr s)
  | JArray _ | JObject _ => Raised TypeError
  end.

Fixpoint atoms_of (items : list json) : outcome (list atom) :=
  match items with
  | [] => Returned []
  | x :: rest =>
      let! a := atom_of x in
      let! more := atoms_of rest in
      Returned (a :: more)
  end.

(** [set(x)] *)
Definition py_set (x : json) : outcome (gset atom) :=
  let! items := py_iter x in
  let! atoms := atoms_of items in
  Returned (list_to_set atoms).

(** The remote services, the XML parser of the standard library and the
    iteration order of sets. *)
Record World : Type := {
  (** GET [ESEARCH_URL] with [term], [mindate], [maxdate], then
      [response.json()]; a body that is not JSON raises
      [requests.exceptions.JSONDecodeError], a [RequestException] *)
  esearch : str -> str -> str -> response json;
  (** POST [EFETCH_URL] with the joined identifiers; the body is
      [response.text] *)
  efetch : str -> response str;
  (** GET of a PMC article page, parsed by BeautifulSoup *)
  pmc_get : str -> response BS.node;
  (** [ET.fromstring]: [None] stands for [ET.ParseError] *)
  fromstring : str -> option Element;
  (** POST to the generative-language API with the prompt, then
      [response.json()] *)
  generate : str -> response json;
  (** [list(s)] for a set [s]: its members in the order the hash seed of
      the process gives them *)
  listing : gset atom -> list atom;
  listing_perm : forall s, listing s ≡ₚ elements s
}.

(** Outbound calls, in the order they are made. *)
Inductive call : Type :=
  | CallESearch (term : str)
  | CallEFetch (ids : str)
  | CallPMC (url : str)
  | CallGenerate (prompt : str).

(** The state an endpoint threads through: the calls made so far and the
    local list [articles_data] of [search_endpoint]. *)
Record state : Type := mkState {
  calls : list call;
  articles_data : list Article
}.

Definition M (A : Type) : Type := state -> outcome A * state.

Definition ret {A} (a : A) : M A := fun st => (Returned a, st).

Definition raise {A} (e : exn) : M A := fun st => (Raised e, st).

Definition bind {A B} (m : M A) (k : A -> M B) : M B :=
  fun st =>
    match m st with
    | (Returned a, st') => k a st'
    | (Raised e, st') => (Raised e, st')
    end.

Definition lift {A} (o : outcome A) : M A := fun st => (o, st).

Notation "'do!' x ':=' m 'in' k" := (bind m (fun x => k))
  (at level 10, x name, m at level 100, k at level 200,
   format "'[v' 'do!'  x  ':='  m  'in' '/' k ']'").

Definition outbound (c : call) : M unit :=
  fun st => (Returned tt, {| calls := calls st ++ [c]; articles_data := articles_data st |}).

(** [articles_data.append(a)] *)
Definition append_article (a : Article) : M unit :=
  fun st => (Returned tt, {| calls := calls st; articles_data := articles_data st ++ [a] |}).

(** [articles_data = []] *)
Definition new_articles_data : M unit :=
  fun st => (Returned tt, {| calls := calls st; articles_data := [] |}).

Definition get_articles_data : M (list Article) :=
  fun st => (Returned (articles_data st), st).

(** [try: body except ET.ParseError: pass] *)
Definition except_ParseError (body : M unit) : M unit :=
  fun st =>
    match body st with
    | (Raised ParseError, st') => (Returned tt, st')
    | r => r
    end.

(** ** Core logic functions *)

Definition PMC_ARTICLE_URL : str := lit "https://www.ncbi.nlm.nih.gov/pmc/articles/".

Definition search_term_of (query : str) (exclude_preprints free_full_text_only : bool) : str :=
  let search_term := lit "(" ++ query ++ lit ")" in
  let search_term :=
    if exclude_preprints then search_term ++ lit " NOT preprint[pt]" else search_term in
  if free_full_text_only then search_term ++ lit " AND free full text[filter]"
  else search_term.

(** The [try] body of [search_pmids] after [response.json()]:
    [pmids = data.get('esearchresult', {}).get('idlist', [])], the
    [len(pmids)] of the log line, and [set(pmids)]. *)
Definition pmids_of_answer (data : json) : outcome (gset atom) :=
  let! result := dict_get data (lit "esearchresult") (JObject []) in
  let! pmids := dict_get result (lit "idlist") (JArray []) in
  let! _ := py_len pmids in
  py_set pmids.

(** [except requests.exceptions.RequestException] catches the transport
    failure only; what [pmids_of_answer] raises goes to the caller. *)
Definition search_pmids (w : World) (query start_date stop_date : str)
    (exclude_preprints free_full_text_only : bool) : M (gset atom) :=
  let search_term := search_term_of query exclude_preprints free_full_text_only in
  do! _ := outbound (CallESearch search_term) in
  match esearch w search_term start_date stop_date with
  | Body data => lift (pmids_of_answer data)
  | RequestException _ => ret ∅
  end.

(** [','.join(pmids)]: an item that is not a [str] raises [TypeError]. *)
Fixpoint strs_of (pmids : list atom) : outcome (list str) :=
  match pmids with
  | [] => Returned []
  | AStr s :: rest => let! more := strs_of rest in Returned (s :: more)
  | _ :: _ => Raised TypeError
  end.

Definition join_ids (pmids : list atom) : outcome str :=
  let! strs := strs_of pmids in Returned (join (lit ",") strs).

(** The parameters are built before the [try]. *)
Definition get_details_for_pmids (w : World) (pmids : list atom) : M (option str) :=
  match pmids with
  | [] => ret None
  | _ =>
      do! ids := lift (join_ids pmids) in
      do! _ := outbound (CallEFetch ids) in
      match efetch w ids with
      | Body text => ret (Some text)
      | RequestException _ => ret None
      end
  end.

Definition scrape_full_text (w : World) (pmcid : str) : M str :=
  let url := PMC_ARTICLE_URL ++ pmcid ++ lit "/" in
  do! _ := outbound (CallPMC url) in
  match pmc_get w url with
  | Body soup =>
      match BS.find_attrs soup (lit "aria-label") (lit "Article content") with
      | None => ret (lit "FULL_TEXT_CONTAINER_NOT_FOUND")
      | Some body =>
          let full_text :=
            join (lit " ") (List.map BS.get_text_strip (BS.find_all body (lit "p"))) in
          ret (if truthy full_text then full_text else lit "FULL_TEXT_EMPTY")
      end
  | RequestException e =>
      do! line := lift (index (splitlines e) 0) in
      ret (lit "SCRAPING_FAILED: " ++ line)
  end.

(** ** The search endpoint *)

(** The class [[\x00-\x08\x0B-\x0C\x0E-\x1F]] removed before parsing. *)
Definition is_invalid_xml_char (c : char) : bool :=
  ((c <=? 8) || (11 <=? c) && (c <=? 12) || (14 <=? c) && (c <=? 31))%N.

Definition safe_xml_of (xml_data : str) : str :=
  List.filter (fun c => negb (is_invalid_xml_char c)) xml_data.

Definition p_PubmedArticle := [Child (lit "PubmedArticle")].

(** Steps 3 and 4: the loop over the records of one parsed chunk. *)
Fixpoint records_loop (w : World) (request : SearchRequest)
    (records : list Element) : M unit :=
  match records with
  | [] => ret tt
  | article_xml :: rest =>
      do! article_details := lift (parse_article_xml article_xml) in
      do! _ :=
        (match article_details with
         | Some a =>
             do! a' :=
               (match pmcid a with
                | Some id =>
                    if fetch_full_text request && truthy id
                    then do! t := scrape_full_text w id in ret (set_full_text a t)
                    else ret a
                | None => ret a
                end) in
             append_article a'
         | None => ret tt
         end) in
      records_loop w request rest
  end.

(** [pmid_list[i:i + request.chunk_size]] *)
Definition chunk_at {A} (request : SearchRequest) (pmid_list : list A) (i : Z) : list A :=
  slice pmid_list i (i + chunk_size request).

(** The body of the chunk loop for the chunk starting at [i]. *)
Definition chunk_body (w : World) (request : SearchRequest)
    (pmid_list : list atom) (i : Z) : M unit :=
  let chunk := chunk_at request pmid_list i in
  do! xml_data := get_details_for_pmids w chunk in
  match xml_data with
  | Some xml_data =>
      if truthy xml_data then
        except_ParseError
          (let safe_xml := safe_xml_of xml_data in
           match fromstring w safe_xml with
           | Some root => records_loop w request (findall root p_PubmedArticle)
           | None => raise ParseError
           end)
      else ret tt
  | None => ret tt
  end.

(** Step 2: [for i in range(0, len(pmid_list), request.chunk_size)]. *)
Fixpoint chunks_loop (w : World) (request : SearchRequest)
    (pmid_list : list atom) (idxs : list Z) : M unit :=
  match idxs with
  | [] => ret tt
  | i :: rest =>
      do! _ := chunk_body w request pmid_list i in
      chunks_loop w request pmid_list rest
  end.

Definition search_endpoint (w : World) (request : SearchRequest) : M (list Article) :=
  do! all_pmids :=
    search_pmids w (query request) (start_date request) (stop_date request)
                 (exclude_preprints request) (free_full_text_only request) in
  let pmid_list := slice_to (listing w all_pmids) (limit request) in
  match pmid_list with
  | [] => ret []
  | _ =>
      do! _ := new_articles_data in
      do! idxs := lift (range 0 (Z.of_nat (length pmid_list)) (chunk_size request)) in
      do! _ := chunks_loop w request pmid_list idxs in
      get_articles_data
  end.

(** ** The analysis endpoint *)

Definition nl : str := [10%N].

Definition prompt_header : str :=
  lit "You are a research assistant. Synthesize research gaps from the provided articles into a concise list. For each gap, cite the source in parentheses (First Author, Year)."
  ++ nl ++ nl ++ lit "Example:" ++ nl
  ++ lit "- The efficacy of treatment Y has not been tested in pediatric populations (Jones, 2021)."
  ++ nl ++ nl ++ lit "--- START OF ARTICLES ---" ++ nl.

(** [article.full_text if article.full_text and 'NOT_ATTEMPTED' not in
    article.full_text else article.abstract] *)
Definition text_content_of (article : Article) : str :=
  match full_text article with
  | Some ft =>
      if truthy ft && negb (contains (lit "NOT_ATTEMPTED") ft) then ft
      else abstract article
  | None => abstract article
  end.

Definition citation_of (article : Article) : str :=
  lit "(" ++ first_author article ++ lit ", " ++ year article ++ lit ")".

(** The text content as it enters the block: [text_content[:3000]]. *)
Definition contributed_text (article : Article) : str :=
  slice_to (text_content_of article) 3000.

(** One element of [article_texts]; [idx] is the index [enumerate] gives. *)
Definition article_block (idx : nat) (article : Article) : str :=
  lit "ARTICLE " ++ str_of_nat (idx + 1) ++ lit " " ++ citation_of article
  ++ lit ":" ++ nl ++ contributed_text article ++ lit "..." ++ nl.

Fixpoint article_texts_from (idx : nat) (articles : list Article) : list str :=
  match articles with
  | [] => []
  | article :: rest => article_block idx article :: article_texts_from (S idx) rest
  end.

Definition full_prompt_of (articles : list Article) : str :=
  slice_to (prompt_header ++ join nl (article_texts_from 0 articles)) 30000.

(** [response.json()['candidates'][0]['content']['parts'][0]['text']] *)
Definition completion_text (answer : json) : outcome json :=
  let! candidates := subscript answer (lit "candidates") in
  let! candidate := subscript0 candidates in
  let! content := subscript candidate (lit "content") in
  let! parts := subscript content (lit "parts") in
  let! part := subscript0 parts in
  subscript part (lit "text").

(** The two handlers of the generative endpoints:
    [except RequestException] gives status 503, [except (KeyError,
    IndexError)] status 500; any other exception of the body goes to the
    caller. *)
Definition with_http_errors {A} (r : response json) (body : json -> outcome A) : M A :=
  match r with
  | RequestException _ => raise (HTTPException 503)
  | Body answer =>
      match body answer with
      | Raised KeyError | Raised IndexError => raise (HTTPException 500)
      | o => lift o
      end
  end.

(** The endpoint returns [{"result": analysis_result}], whatever JSON
    value [analysis_result] is. *)
Definition analyze_endpoint (w : World) (articles : list Article) : M json :=
  let full_prompt := full_prompt_of articles in
  do! _ := outbound (CallGenerate full_prompt) in
  with_http_errors (generate w full_prompt) completion_text.

(** An endpoint starts with no call made. *)
Definition init : state := {| calls := []; articles_data := [] |}.

Definition run {A} (m : M A) : outcome A * list call :=
  let (r, st) := m init in (r, calls st).

(** ** The query endpoint *)

Definition dquote : str := [34%N].

(** The prompt of [generate_query_endpoint] around [request.idea]. *)
Definition query_prompt_prefix : str :=
  lit "Based on the user's research idea, create a concise and effective PubMed query. Instructions: 1. Identify key concepts. 2. Find synonyms. 3. Group with `OR` in parentheses, like `(concept[TIAB] OR synonym[TIAB])`. 4. Combine concepts with `AND`. 5. Confine search to title/abstract with `[TIAB]`. 6. Return ONLY the final query string. User's Idea: "
  ++ dquote.

Definition query_prompt_suffix : str :=
  dquote ++ lit " Example Output: ((" ++ dquote ++ lit "air pollution" ++ dquote
  ++ lit "[TIAB]) AND (" ++ dquote ++ lit "asthma" ++ dquote
  ++ lit "[TIAB]) AND (" ++ dquote ++ lit "child" ++ dquote ++ lit "[TIAB]))".

(** [text.strip()]: only a [str] has [strip]. *)
Definition py_strip (x : json) : outcome str :=
  match x with
  | JString s => Returned (strip s)
  | _ => Raised AttributeError
  end.

(** [generate] of the world answers by prompt; the prompts of the two
    endpoints start differently, so one function serves both. *)
Definition generate_query_endpoint (w : World) (idea : str) : M str :=
  let prompt := query_prompt_prefix ++ idea ++ query_prompt_suffix in
  do! _ := outbound (CallGenerate prompt) in
  with_http_errors (generate w prompt)
    (fun answer => let! text := completion_text answer in py_strip text).

(** ** Vocabulary of the properties *)

(** The answer of the E-Search call of a request. *)
Definition esearch_answer (w : World) (request : SearchRequest) : response json :=
  esearch w (search_term_of (query request) (exclude_preprints request)
                            (free_full_text_only request))
          (start_date request) (stop_date request).

(** What [search_pmids] comes to for a request: a set, or the exception it
    lets through. *)
Definition search_outcome (w : World) (request : SearchRequest) : outcome (gset atom) :=
  match esearch_answer w request with
  | Body data => pmids_of_answer data
  | RequestException _ => Returned ∅
  end.

(** The set [search_pmids] returns for a request (empty when it raises),
    and the list [search_endpoint] goes on to process. *)
Definition found_pmids (w : World) (request : SearchRequest) : gset atom :=
  match search_outcome w request with
  | Returned ids => ids
  | Raised _ => ∅
  end.

Definition pmid_list_of (w : World) (request : SearchRequest) : list atom :=
  slice_to (listing w (found_pmids w request)) (limit request).

(** The E-Search answers [search_pmids] can read: a [dict] whose
    [esearchresult], when present, is a [dict], whose [idlist], when
    present, can be iterated and holds hashable items only. *)
Definition hashable (x : json) : bool :=
  match x with
  | JArray _ | JObject _ => false
  | _ => true
  end.

Definition idlist_readable (pmids : json) : bool :=
  match pmids with
  | JArray items => forallb hashable items
  | JString _ | JObject _ => true
  | _ => false
  end.

Definition well_shaped (data : json) : bool :=
  match data with
  | JObject members =>
      match lookup_key members (lit "esearchresult") with
      | None => true
      | Some (JObject result) =>
          match lookup_key result (lit "idlist") with
          | None => true
          | Some pmids => idlist_readable pmids
          end
      | Some _ => false
      end
  | _ => false
  end.

(** The identifiers an answer reports, duplicates included: the items of
    its [idlist] (the characters of a string, the keys of a [dict]). *)
Definition upstream_items (data : json) : list json :=
  match data with
  | JObject members =>
      match lookup_key members (lit "esearchresult") with
      | Some (JObject result) =>
          match lookup_key result (lit "idlist") with
          | Some (JArray items) => items
          | Some (JString s) => List.map (fun c => JString [c]) s
          | Some (JObject keyed) => List.map (fun kv => JString (fst kv)) keyed
          | _ => []
          end
      | _ => []
      end
  | _ => []
  end.

Definition atom_view (x : json) : option atom :=
  match x with
  | JNull => Some ANone
  | JBool b => Some (ANumber (if b then 1 else 0))
  | JNumber n => Some (ANumber n)
  | JString s => Some (AStr s)
  | JArray _ | JObject _ => None
  end.

Definition upstream_ids (data : json) : list atom :=
  omap atom_view (upstream_items data).

(** An E-Search answer with the given identifiers. *)
Definition esearch_json (ids : list string) : json :=
  JObject [(lit "esearchresult",
            JObject [(lit "count", JString (lit "3"));
                     (lit "idlist", JArray (List.map (fun s => JString (lit s)) ids))])].

Definition is_str (a : atom) : bool :=
  match a with AStr _ => true | _ => false end.

(** The documented result of the scraper for an answer of the page
    request. *)
Definition scraper_result (r : response BS.node) (t : str) : Prop :=
  match r with
  | RequestException _ => exists line, t = lit "SCRAPING_FAILED: " ++ line
  | Body soup =>
      match BS.find_attrs soup (lit "aria-label") (lit "Article content") with
      | None => t = lit "FULL_TEXT_CONTAINER_NOT_FOUND"
      | Some body =>
          let full_text :=
            join (lit " ") (List.map BS.get_text_strip (BS.find_all body (lit "p"))) in
          (full_text = [] /\ t = lit "FULL_TEXT_EMPTY") \/
          (full_text <> [] /\ t = full_text)
      end
  end.

(** The order of [elements], and its reverse, as orders of [list(s)]. *)
Definition listing_of (flip : bool) (s : gset atom) : list atom :=
  if flip then reverse (elements s) else elements s.

Definition listing_of_perm (flip : bool) (s : gset atom) :
  listing_of flip s ≡ₚ elements s :=
  match flip return (if flip then reverse (elements s) else elements s) ≡ₚ elements s with
  | true => reverse_Permutation (elements s)
  | false => reflexivity (elements s)
  end.

(** A world in which every request fails with an exception whose message
    is empty, such as [requests.exceptions.ConnectionError()]. *)
Definition silent_failure : World :=
  {| esearch := fun _ _ _ => RequestException [];
     efetch := fun _ => RequestException [];
     pmc_get := fun _ => RequestException [];
     fromstring := fun _ => None;
     generate := fun _ => RequestException [];
     listing := listing_of false;
     listing_perm := listing_of_perm false |}.

(** An article as [parse_article_xml] builds it, with a given abstract
    and full text. *)
Definition sample_article (abstract : str) (full_text : option str) : Article :=
  {| pmid := lit "1"; title := lit "T"; first_author := lit "Doe, J.";
     authors := lit "Jane Doe"; year := lit "2020"; journal := Some (lit "N/A");
     abstract := abstract; pmcid := Some (lit "PMC1"); full_text := full_text |}.

(** Sample records. [sample_record] is a complete PubMed record;
    [record_without_pmid] has every field but the identifier;
    [record_without_pubdate] lacks the [PubDate] element. *)
Definition elem (tag : string) (children : list Element) : Element :=
  mkElement (lit tag) [] None children.

Definition leaf (tag : string) (text : str) : Element :=
  mkElement (lit tag) [] (Some text) [].

Definition sample_article_part (abstract : str) (with_pubdate : bool) : Element :=
  elem "Article"
    [leaf "ArticleTitle" (lit "  Root   imaging  ");
     elem "AuthorList"
       [elem "Author" [leaf "ForeName" (lit "Jane  A"); leaf "LastName" (lit "Doe")]];
     elem "Journal"
       [leaf "Title" (lit "Plant Methods");
        elem "JournalIssue"
          (if with_pubdate then [elem "PubDate" [leaf "Year" (lit "2020")]] else [])];
     elem "Abstract" [leaf "AbstractText" abstract]].

Definition sample_pubmed_data (pmc : str) : Element :=
  elem "PubmedData"
    [elem "ArticleIdList"
       [mkElement (lit "ArticleId") [(lit "IdType", lit "pmc")] (Some pmc) []]].

Definition sample_record (pmid abstract pmc : str) : Element :=
  elem "PubmedArticle"
    [elem "MedlineCitation" [leaf "PMID" pmid; sample_article_part abstract true];
     sample_pubmed_data pmc].

Definition record_without_pmid : Element :=
  elem "PubmedArticle"
    [elem "MedlineCitation" [sample_article_part (lit "An abstract.") true];
     sample_pubmed_data (lit "PMC1")].

Definition record_without_pubdate : Element :=
  elem "PubmedArticle"
    [elem "MedlineCitation"
       [leaf "PMID" (lit "7"); sample_article_part (lit "An abstract.") false];
     sample_pubmed_data (lit "PMC1")].

(** [extend st d]: the state [st] after the calls and the articles of [d]
    were added to it. *)
Definition extend (st d : state) : state :=
  {| calls := calls st ++ calls d;
     articles_data := articles_data st ++ articles_data d |}.

(** A computation that only adds calls and articles to the state. *)
Definition framed {A} (m : M A) : Prop :=
  forall st, m st = (fst (m init), extend st (snd (m init))).

(** The articles one chunk adds to [articles_data]. *)
Definition chunk_yield (w : World) (request : SearchRequest)
    (pmid_list : list atom) (i : Z) : list Article :=
  articles_data (snd (chunk_body w request pmid_list i init)).


(** The detail answer of every chunk of the request holds at most one
    record per identifier asked for. *)
Definition answers_bounded (w : World) (request : SearchRequest) : Prop :=
  let pmid_list := pmid_list_of w request in
  forall idxs i ids xml_data root,
    range 0 (Z.of_nat (length pmid_list)) (chunk_size request) = Returned idxs ->
    In i idxs ->
    join_ids (chunk_at request pmid_list i) = Returned ids ->
    efetch w ids = Body xml_data ->
    fromstring w (safe_xml_of xml_data) = Some root ->
    (length (findall root p_PubmedArticle) <= length (chunk_at request pmid_list i))%nat.

(** A world with three identifiers (one reported twice) in which the
    details of identifier 3 come back unparsable; a page has one
    paragraph. *)
Definition sample_page : BS.node :=
  BS.Tag (lit "html") []
    [BS.Tag (lit "section") [(lit "aria-label", lit "Article content")]
       [BS.Tag (lit "p") [] [BS.NavigableString (lit "  Roots grow. ")]]].

Definition sample_world : World :=
  {| esearch := fun _ _ _ => Body (esearch_json ["1"; "2"; "3"; "2"]%string);
     efetch := fun ids => Body ids;
     pmc_get := fun _ => Body sample_page;
     fromstring := fun xml =>
       if bool_decide (xml = lit "3") then None
       else Some (elem "PubmedArticleSet"
                    [sample_record xml (lit "An abstract.") (lit "PMC" ++ xml)]);
     generate := fun _ => Body (JObject []);
     listing := listing_of false;
     listing_perm := listing_of_perm false |}.

Definition sample_request (limit chunk_size : Z) : SearchRequest :=
  {| query := lit "roots"; start_date := lit "1900/01/01";
     stop_date := lit "3000/01/01"; limit := limit; chunk_size := chunk_size;
     exclude_preprints := true; free_full_text_only := false;
     fetch_full_text := true |}.

(** Whitespace normal forms.  In a [spaced] string every whitespace
    character is a single space followed by a character that is not
    whitespace; a [normalized] string moreover does not start with
    whitespace, so whitespace occurs in it only as single spaces between
    other characters.  A [trimmed] string has no whitespace at either end,
    whatever it has inside. *)
Fixpoint spaced (s : str) : bool :=
  match s with
  | [] => true
  | c :: r =>
      (if isspace c
       then (c =? SP)%N && match r with [] => false | d :: _ => negb (isspace d) end
       else true) && spaced r
  end.

Definition starts_clean (s : str) : bool :=
  match s with [] => true | c :: _ => negb (isspace c) end.

Fixpoint ends_ws (s : str) : bool :=
  match s with
  | [] => false
  | c :: r => match r with [] => isspace c | _ => ends_ws r end
  end.

Definition normalized (s : str) : bool := starts_clean s && spaced s.

Definition trimmed (s : str) : bool := starts_clean s && negb (ends_ws s).

(** No whitespace at all, as in a token of [split]. *)
Definition solid (s : str) : bool := forallb (fun c => negb (isspace c)) s.

(** Not empty and normalized. *)
Definition tight (s : str) : Prop :=
  s <> [] /\ starts_clean s = true /\ spaced s = true.

(** What every article of a search result satisfies: an identifier, the
    whitespace forms of the parsed fields, and a full text that is not
    empty. *)
Definition well_formed (a : Article) : Prop :=
  truthy (pmid a) = true /\ normalized (pmid a) = true /\
  normalized (title a) = true /\ normalized (authors a) = true /\
  normalized (first_author a) = true /\ normalized (year a) = true /\
  trimmed (abstract a) = true /\
  exists t, full_text a = Some t /\ truthy t = true.

(** The detail call of the chunk starting at [i]. *)
Definition texts_of (pmids : list atom) : list str :=
  omap (fun a => match a with AStr s => Some s | _ => None end) pmids.

(** The calls [scrape_full_text] makes. *)
Definition is_scrape_call (c : call) : bool :=
  match c with CallPMC _ => true | _ => false end.

Definition fetch_call (request : SearchRequest) (pmid_list : list atom) (i : Z) : call :=
  CallEFetch (join (lit ",") (texts_of (chunk_at request pmid_list i))).

(** A page whose container holds two paragraphs without text. *)
Definition blank_page : BS.node :=
  BS.Tag (lit "html") []
    [BS.Tag (lit "section") [(lit "aria-label", lit "Article content")]
       [BS.Tag (lit "p") [] []; BS.Tag (lit "p") [] [BS.NavigableString (lit "  ")]]].

Definition blank_world : World :=
  {| esearch := fun _ _ _ => RequestException (lit "down");
     efetch := fun _ => RequestException (lit "down");
     pmc_get := fun url =>
       if bool_decide (url = PMC_ARTICLE_URL ++ lit "PMC1/") then Body blank_page
       else RequestException (lit "HTTP 404" ++ nl ++ lit "Not Found");
     fromstring := fun _ => None;
     generate := fun _ =>
       Body (JObject
         [(lit "candidates",
           JArray [JObject
             [(lit "content",
               JObject [(lit "parts",
                 JArray [JObject
                   [(lit "text", JString ([SP] ++ lit "(roots[TIAB])" ++ nl))]])])]])]);
     listing := listing_of false;
     listing_perm := listing_of_perm false |}.

(** A world whose E-Search answer is [data] and whose other requests fail. *)
Definition answering (data : json) : World :=
  {| esearch := fun _ _ _ => Body data;
     efetch := fun _ => RequestException (lit "down");
     pmc_get := fun _ => RequestException (lit "down");
     fromstring := fun _ => None;
     generate := fun _ => RequestException (lit "down");
     listing := listing_of false;
     listing_perm := listing_of_perm false |}.

(** A world whose generative service answers [answer] and whose other
    requests fail. *)
Definition generating (answer : json) : World :=
  {| esearch := fun _ _ _ => RequestException (lit "down");
     efetch := fun _ => RequestException (lit "down");
     pmc_get := fun _ => RequestException (lit "down");
     fromstring := fun _ => None;
     generate := fun _ => Body answer;
     listing := listing_of false;
     listing_perm := listing_of_perm false |}.

(** The answer of the generative service that holds [text] where the
    endpoints read it. *)
Definition completion (text : json) : json :=
  JObject
    [(lit "candidates",
      JArray [JObject
        [(lit "content",
          JObject [(lit "parts", JArray [JObject [(lit "text", text)]])])]])].

(** A world with the identifiers 1, 2 and 3 in which every detail answer,
    whatever was asked for, holds the same two records; sets are listed in
    the order of [elements] or in its reverse. *)
Definition doubling_world (flip : bool) : World :=
  {| esearch := fun _ _ _ => Body (esearch_json ["1"; "2"; "3"]%string);
     efetch := fun ids => Body ids;
     pmc_get := fun _ => Body sample_page;
     fromstring := fun _ =>
       Some (elem "PubmedArticleSet"
               [sample_record (lit "10") (lit "An abstract.") (lit "PMC10");
                sample_record (lit "11") (lit "An abstract.") (lit "PMC11")]);
     generate := fun _ => RequestException (lit "down");
     listing := listing_of flip;
     listing_perm := listing_of_perm flip |}.


(** * Properties *)

(** ** Sanity checks of the Python primitives *)

Example range_chunks : range 0 5 2 = Returned [0; 2; 4].
Proof. reflexivity. Qed.
Example splitlines_crlf :
  splitlines (lit "ab" ++ [13; 10]%N ++ lit "c") = [lit "ab"; lit "c"].
Proof. reflexivity. Qed.
Example splitlines_empty : splitlines [] = [].
Proof. reflexivity. Qed.
Example split_ex : split (lit "  Jane   van  Doe ") = [lit "Jane"; lit "van"; lit "Doe"].
Proof. reflexivity. Qed.
Example sub_ex : re_sub_ws (strip (lit "  a   b  ")) = lit "a b".
Proof. reflexivity. Qed.
Example slice_neg : slice_to [1; 2; 3] (-1) = [1; 2].
Proof. reflexivity. Qed.

Example article_block_first :
  article_block 0 (sample_article (lit "Roots grow.") None)
  = lit "ARTICLE 1 (Doe, J., 2020):" ++ nl ++ lit "Roots grow...." ++ nl.
Proof. reflexivity. Qed.

Example scrape_sample_page :
  run (scrape_full_text sample_world (lit "PMC2"))
  = (Returned (lit "Roots grow."),
     [CallPMC (lit "https://www.ncbi.nlm.nih.gov/pmc/articles/PMC2/")]).
Proof. reflexivity. Qed.

Example first_author_single_token : first_author_of (lit "Jane") = Returned (lit "Jane").
Proof. reflexivity. Qed.

(** ** Slices and ranges *)

Lemma length_slice_to {A} (l : list A) (b : Z) :
  0 <= b -> Z.of_nat (length (slice_to l b)) <= b.
Proof.
  intros Hb. unfold slice_to, slice, clamp.
  replace (0 <? 0) with false by reflexivity.
  destruct (b <? 0) eqn:E; [apply Z.ltb_lt in E; lia|].
  rewrite List.length_firstn. lia.
Qed.

Lemma slice_to_nonneg {A} (l : list A) (b : Z) :
  0 <= b -> slice_to l b = firstn (Z.to_nat b) l.
Proof.
  intros Hb. unfold slice_to, slice, clamp.
  replace (0 <? 0) with false by reflexivity.
  destruct (b <? 0) eqn:E; [apply Z.ltb_lt in E; lia|].
  rewrite (Z.min_l 0) by lia. cbn [Z.to_nat skipn]. rewrite Z.sub_0_r.
  destruct (Z.le_ge_cases b (Z.of_nat (length l))).
  - now rewrite Z.min_l.
  - rewrite Z.min_r by lia. rewrite Nat2Z.id.
    rewrite (List.firstn_all2 (n := Z.to_nat b)) by lia.
    now rewrite List.firstn_all.
Qed.

Lemma range_zero_step (start stop : Z) : range start stop 0 = Raised ValueError.
Proof. reflexivity. Qed.

Lemma range_negative_step (stop step : Z) :
  step < 0 -> 0 <= stop -> range 0 stop step = Returned [].
Proof.
  intros Hs Hn. unfold range.
  destruct (step =? 0) eqn:E0; [apply Z.eqb_eq in E0; lia|].
  destruct (0 <? step) eqn:E1; [apply Z.ltb_lt in E1; lia|].
  destruct (stop <? 0) eqn:E2; [apply Z.ltb_lt in E2; lia|].
  reflexivity.
Qed.

(** ** The full-text scraper *)

Lemma splitlines_from_nonempty (s cur : str) (b : bool) :
  cur <> [] -> exists line rest, splitlines_from b cur s = line :: rest.
Proof.
  revert cur b. induction s as [| d s IH]; intros cur b Hcur; cbn [splitlines_from].
  - destruct cur; [congruence | eauto].
  - destruct (b && (d =? 10)%N); [now apply IH|].
    destruct (is_linebreak d); [eauto|].
    apply IH. now destruct cur.
Qed.

(** A non-empty string has a first line. *)
Lemma splitlines_nonempty (s : str) :
  s <> [] -> exists line rest, splitlines s = line :: rest.
Proof.
  destruct s as [| c r]; [congruence|]. intros _.
  unfold splitlines. cbn [splitlines_from andb].
  destruct (is_linebreak c); [eauto|].
  now apply splitlines_from_nonempty.
Qed.

(** Whatever the page and whatever the failure, as long as its message is
    not empty, the scraper returns the documented result for it. *)
Lemma scrape_full_text_results (w : World) (pmcid : str) (st : state) :
  pmc_get w (PMC_ARTICLE_URL ++ pmcid ++ lit "/") <> RequestException [] ->
  exists t st', scrape_full_text w pmcid st = (Returned t, st') /\
                articles_data st' = articles_data st /\
                scraper_result (pmc_get w (PMC_ARTICLE_URL ++ pmcid ++ lit "/")) t.
Proof.
  intros Hne. unfold scrape_full_text, bind, outbound, ret, lift, scraper_result.
  destruct (pmc_get w _) as [msg | soup].
  - destruct (splitlines_nonempty msg) as (line & rest & Hl); [congruence|].
    rewrite Hl. cbn [index nth_error].
    do 2 eexists. split; [reflexivity|]. split; [reflexivity|]. eauto.
  - destruct (BS.find_attrs soup _ _).
    + do 2 eexists. split; [reflexivity|]. split; [reflexivity|].
      destruct (join _ _) eqn:E; cbn [truthy].
      * left. auto.
      * right. split; [discriminate | reflexivity].
    + do 2 eexists. split; [reflexivity|]. split; [reflexivity|]. reflexivity.
Qed.

(** C1 (the code departs from the claim): a transport error whose message
    is empty makes [str(e).splitlines()] the empty list, so indexing it
    inside the handler raises [IndexError], which [scrape_full_text] lets
    escape instead of returning a [SCRAPING_FAILED:] string. *)
Theorem scrape_full_text_empty_message_raises (pmcid : str) :
  run (scrape_full_text silent_failure pmcid)
  = (Raised IndexError, [CallPMC (PMC_ARTICLE_URL ++ pmcid ++ lit "/")]).
Proof. reflexivity. Qed.

(** ** The analysis prompt *)

(** The two handlers leave the state as it is. *)
Lemma with_http_errors_state {A} (r : response json) (body : json -> outcome A)
    (st : state) : snd (with_http_errors r body st) = st.
Proof.
  unfold with_http_errors. destruct r as [msg | answer]; [reflexivity|].
  destruct (body answer) as [a | e]; [reflexivity|]. now destruct e.
Qed.

(** C3 (the code departs from the claim): an article whose [full_text] is
    one of the scraper's failure strings contributes that string, not its
    abstract, because only [NOT_ATTEMPTED] is filtered out. *)
Theorem sentinel_full_text_is_sent (abstract : str) :
  text_content_of (sample_article abstract (Some (lit "FULL_TEXT_EMPTY")))
    = lit "FULL_TEXT_EMPTY" /\
  text_content_of (sample_article abstract (Some (lit "FULL_TEXT_CONTAINER_NOT_FOUND")))
    = lit "FULL_TEXT_CONTAINER_NOT_FOUND" /\
  text_content_of (sample_article abstract (Some (lit "SCRAPING_FAILED: timed out")))
    = lit "SCRAPING_FAILED: timed out".
Proof. repeat split; reflexivity. Qed.

(** C9: each article enters its block with at most 3000 characters of
    text content, and the prompt sent upstream, the only outbound call of
    the endpoint, has at most 30000 characters. *)
Theorem analyze_prompt_is_truncated (w : World) (articles : list Article) :
  Forall (fun a => Z.of_nat (length (contributed_text a)) <= 3000) articles /\
  (forall idx a, exists pre,
      article_block idx a = pre ++ contributed_text a ++ lit "..." ++ nl) /\
  exists r p, run (analyze_endpoint w articles) = (r, [CallGenerate p]) /\
              p = full_prompt_of articles /\ Z.of_nat (length p) <= 30000.
Proof.
  split; [|split].
  - apply Forall_forall. intros a _. unfold contributed_text.
    apply (length_slice_to (text_content_of a) 3000). lia.
  - intros idx a. unfold article_block.
    exists (lit "ARTICLE " ++ str_of_nat (idx + 1) ++ lit " " ++ citation_of a
            ++ lit ":" ++ nl).
    now rewrite <- !app_assoc.
  - assert (Hlen : Z.of_nat (length (full_prompt_of articles)) <= 30000).
    { unfold full_prompt_of. apply (length_slice_to _ 30000). lia. }
    pose proof (with_http_errors_state (generate w (full_prompt_of articles))
                  completion_text) as Hst.
    unfold run, analyze_endpoint, bind, outbound. cbn [calls init app].
    match goal with |- context [with_http_errors _ _ ?s] => specialize (Hst s) end.
    destruct (with_http_errors _ _ _) as [r st']. cbn [snd] in Hst. subst st'.
    exists r, (full_prompt_of articles). auto.
Qed.

(** ** Remote ID search *)

Lemma search_pmids_run (w : World) (request : SearchRequest) (st : state) :
  search_pmids w (query request) (start_date request) (stop_date request)
               (exclude_preprints request) (free_full_text_only request) st
  = (search_outcome w request,
     {| calls := calls st ++ [CallESearch (search_term_of (query request)
                                (exclude_preprints request)
                                (free_full_text_only request))];
        articles_data := articles_data st |}).
Proof.
  unfold search_pmids, search_outcome, esearch_answer, bind, outbound, ret, lift.
  now destruct (esearch w _ _ _).
Qed.

Lemma atoms_of_hashable (items : list json) :
  forallb hashable items = true ->
  atoms_of items = Returned (omap atom_view items).
Proof.
  induction items as [| x rest IH]; [reflexivity|]. cbn [forallb]. intros H.
  apply andb_true_iff in H as [Hx Hr]. cbn [atoms_of omap]. rewrite (IH Hr).
  now destruct x.
Qed.

Lemma atoms_of_unhashable (items : list json) :
  forallb hashable items = false -> atoms_of items = Raised TypeError.
Proof.
  induction items as [| x rest IH]; [discriminate|]. cbn [forallb atoms_of]. intros H.
  destruct x; cbn [hashable andb atom_of obind] in *; try reflexivity;
    now rewrite (IH H).
Qed.

Lemma forallb_hashable_strings {A} (f : A -> str) (l : list A) :
  forallb hashable (List.map (fun a => JString (f a)) l) = true.
Proof. induction l as [| a l IH]; [reflexivity | exact IH]. Qed.

(** A well-shaped answer gives the set of its identifiers; any other makes
    [search_pmids] raise. *)
Lemma pmids_of_answer_outcome (data : json) :
  if well_shaped data
  then pmids_of_answer data = Returned (list_to_set (upstream_ids data))
  else pmids_of_answer data = Raised AttributeError \/
       pmids_of_answer data = Raised TypeError.
Proof.
  unfold pmids_of_answer, well_shaped, upstream_ids, upstream_items.
  destruct data as [| b | n | s | items | members]; cbn [dict_get obind]; auto.
  destruct (lookup_key members (lit "esearchresult")) as [result |];
    [|reflexivity].
  destruct result as [| b | n | s | items | result]; cbn [dict_get obind]; auto.
  destruct (lookup_key result (lit "idlist")) as [pmids |]; [|reflexivity].
  destruct pmids as [| b | n | s | items | keyed];
    cbn [idlist_readable py_len py_set py_iter obind]; auto.
  - now rewrite (atoms_of_hashable _ (forallb_hashable_strings (fun c => [c]) s)).
  - destruct (forallb hashable items) eqn:E.
    + now rewrite (atoms_of_hashable _ E).
    + rewrite (atoms_of_unhashable _ E). auto.
  - now rewrite (atoms_of_hashable _ (forallb_hashable_strings fst keyed)).
Qed.

(** C7, as the code has it: on a transport failure [search_pmids] returns
    the empty set; on a well-shaped answer it returns a set whose
    enumeration has no duplicates and whose members are exactly the
    identifiers of the answer, empty when there is none, as after a
    failure; on any other answer it raises [AttributeError] or
    [TypeError]. *)
Theorem search_pmids_is_a_set (w : World) (query start_date stop_date : str)
    (exclude_preprints free_full_text_only : bool) (st : state) :
  exists r st',
    search_pmids w query start_date stop_date exclude_preprints
                 free_full_text_only st = (r, st') /\
    match esearch w (search_term_of query exclude_preprints free_full_text_only)
                  start_date stop_date with
    | RequestException _ => r = Returned ∅
    | Body data =>
        if well_shaped data
        then exists ids : gset atom,
               r = Returned ids /\ NoDup (elements ids) /\
               (forall x, x ∈ elements ids <-> x ∈ upstream_ids data) /\
               (upstream_ids data = [] -> ids = ∅)
        else r = Raised AttributeError \/ r = Raised TypeError
    end.
Proof.
  unfold search_pmids, bind, outbound, ret, lift.
  destruct (esearch w _ _ _) as [msg | data]; do 2 eexists;
    (split; [reflexivity|]); [reflexivity|].
  pose proof (pmids_of_answer_outcome data) as H.
  destruct (well_shaped data); [|exact H].
  exists (list_to_set (upstream_ids data)). split; [exact H|].
  split; [apply NoDup_elements|]. split.
  - intros x. rewrite elem_of_elements. apply elem_of_list_to_set.
  - now intros ->.
Qed.

(** C7 as stated fails: an answer that is an array, one whose
    [esearchresult] is null, one whose [idlist] is null and one whose
    [idlist] holds an array all decode as JSON, and [search_pmids] raises
    on each instead of returning a collection. *)
Lemma malformed_answer_raises :
  let search w := fst (run (search_pmids w (lit "roots") (lit "1900/01/01")
                              (lit "3000/01/01") true false)) in
  search (answering (JArray [])) = Raised AttributeError /\
  search (answering (JObject [(lit "esearchresult", JNull)])) = Raised AttributeError /\
  search (answering (JObject [(lit "esearchresult",
                               JObject [(lit "idlist", JNull)])])) = Raised TypeError /\
  search (answering (JObject [(lit "esearchresult",
                               JObject [(lit "idlist",
                                         JArray [JArray [JString (lit "1")]])])]))
  = Raised TypeError.
Proof. repeat split. Qed.

Example search_pmids_duplicates :
  exists ids,
    fst (run (search_pmids sample_world (lit "roots") (lit "1900/01/01")
                (lit "3000/01/01") true false)) = Returned ids /\
    ids = {[AStr (lit "1"); AStr (lit "2"); AStr (lit "3")]} /\ size ids = 3%nat.
Proof. eexists. split; [reflexivity|]. split; vm_compute; reflexivity. Qed.

(** ** The batch-size invariant *)

Lemma listing_empty (w : World) : listing w ∅ = [].
Proof.
  apply Permutation_nil_r. rewrite (listing_perm w ∅).
  now rewrite (elements_empty (C := gset atom)).
Qed.

Lemma slice_nil {A} (a b : Z) : slice (@nil A) a b = [].
Proof. unfold slice. now rewrite drop_nil, take_nil. Qed.

(** Identifiers to process mean that the search returned. *)
Lemma pmid_list_search_returned (w : World) (request : SearchRequest) :
  pmid_list_of w request <> [] ->
  search_outcome w request = Returned (found_pmids w request).
Proof.
  unfold pmid_list_of, found_pmids. destruct (search_outcome w request); [reflexivity|].
  intros H. exfalso. apply H. rewrite listing_empty. apply slice_nil.
Qed.

Lemma search_endpoint_raises (w : World) (request : SearchRequest) (st : state) (e : exn) :
  search_outcome w request = Raised e ->
  exists st', search_endpoint w request st = (Raised e, st').
Proof.
  intros He. unfold search_endpoint, bind. rewrite search_pmids_run, He.
  eexists; reflexivity.
Qed.

Lemma search_endpoint_empty (w : World) (request : SearchRequest) (st : state) :
  (exists ids, search_outcome w request = Returned ids) ->
  pmid_list_of w request = [] ->
  search_endpoint w request st
  = (Returned [],
     {| calls := calls st ++ [CallESearch (search_term_of (query request)
                                (exclude_preprints request)
                                (free_full_text_only request))];
        articles_data := articles_data st |}).
Proof.
  intros (ids & Hs) He. unfold search_endpoint, bind. rewrite search_pmids_run, Hs.
  unfold pmid_list_of, found_pmids in He. rewrite Hs in He. now rewrite He.
Qed.

Lemma search_endpoint_nonempty (w : World) (request : SearchRequest) (st : state) :
  pmid_list_of w request <> [] ->
  search_endpoint w request st
  = (do! idxs := lift (range 0 (Z.of_nat (length (pmid_list_of w request)))
                             (chunk_size request)) in
     do! _ := chunks_loop w request (pmid_list_of w request) idxs in
     get_articles_data)
      {| calls := calls st ++ [CallESearch (search_term_of (query request)
                                 (exclude_preprints request)
                                 (free_full_text_only request))];
         articles_data := [] |}.
Proof.
  intros Hne. pose proof (pmid_list_search_returned w request Hne) as Hs.
  unfold search_endpoint. unfold bind at 1. rewrite search_pmids_run, Hs.
  fold (pmid_list_of w request).
  destruct (pmid_list_of w request) eqn:E; [congruence|].
  reflexivity.
Qed.

(** C10: the endpoint does not guard [chunk_size].  With identifiers left
    after the truncation, a zero [chunk_size] makes [range] raise
    [ValueError], which the endpoint lets escape; a negative one makes the
    range empty, so the endpoint returns the empty list and its only
    outbound call is the search. *)
Theorem chunk_size_is_not_checked (w : World) (request : SearchRequest) :
  pmid_list_of w request <> [] ->
  (chunk_size request = 0 ->
   fst (run (search_endpoint w request)) = Raised ValueError) /\
  (chunk_size request < 0 ->
   run (search_endpoint w request)
   = (Returned [],
      [CallESearch (search_term_of (query request) (exclude_preprints request)
                                   (free_full_text_only request))])).
Proof.
  intros Hne. unfold run. rewrite (search_endpoint_nonempty _ _ _ Hne). split.
  - intros ->. reflexivity.
  - intros Hneg. unfold bind at 1, lift.
    rewrite range_negative_step by lia. reflexivity.
Qed.

(** ** The XML record parser *)

Example parse_sample_record :
  parse_article_xml (sample_record (lit " 42 ") (lit "An abstract.") (lit "PMC9"))
  = Returned (Some
      {| pmid := lit "42"; title := lit "Root imaging";
         first_author := lit "Doe, J."; authors := lit "Jane A Doe";
         year := lit "2020"; journal := Some (lit "Plant Methods");
         abstract := lit "An abstract."; pmcid := Some (lit "PMC9");
         full_text := Some (lit "NOT_ATTEMPTED") |}).
Proof. reflexivity. Qed.

(** A record without [PubDate] makes [get_text] call [.find] on [None]. *)
Example parse_fields_raises :
  parse_fields record_without_pubdate = Raised AttributeError.
Proof. reflexivity. Qed.

(** C5: an element whose PMID node is absent, has no text, or has only
    whitespace as text gives no record, whatever else it contains. *)
Theorem no_identifier_no_record (x : Element) :
  match find x p_PMID with
  | None => True
  | Some node => match text node with
                 | None => True
                 | Some t => strip t = []
                 end
  end ->
  parse_article_xml x = Returned None.
Proof.
  intros H. unfold parse_article_xml, parse_fields, get_text at 1.
  destruct (find x p_PMID) as [node |]; [|reflexivity].
  destruct (text node) as [t |]; [|reflexivity].
  rewrite H. reflexivity.
Qed.

Lemma no_identifier_no_record_witness :
  find record_without_pmid p_PMID = None /\
  parse_article_xml record_without_pmid = Returned None.
Proof.
  split; [reflexivity|].
  apply (no_identifier_no_record record_without_pmid). exact I.
Defined.

Lemma parse_article_xml_total (x : Element) :
  exists r, parse_article_xml x = Returned r.
Proof. unfold parse_article_xml. destruct (parse_fields x); eauto. Qed.

(** C4: [parse_article_xml] returns for every element; when the field
    extraction raises, the handler turns the exception into no-record, and
    the loop over the records of a batch goes on with the next record. *)
Theorem parse_article_xml_never_raises (x : Element) :
  (exists r, parse_article_xml x = Returned r) /\
  (forall e, parse_fields x = Raised e ->
     parse_article_xml x = Returned None /\
     forall w request rest st,
       records_loop w request (x :: rest) st = records_loop w request rest st).
Proof.
  split; [apply parse_article_xml_total|].
  intros e He.
  assert (Hn : parse_article_xml x = Returned None)
    by (unfold parse_article_xml; now rewrite He).
  split; [exact Hn|]. intros w request rest st.
  cbn [records_loop]. rewrite Hn. reflexivity.
Qed.

(** ** The state discipline of the search loop *)

Lemma extend_init (st : state) : extend st init = st.
Proof. destruct st. unfold extend. cbn. now rewrite !app_nil_r. Qed.

Lemma extend_assoc (a b c : state) :
  extend (extend a b) c = extend a (extend b c).
Proof. unfold extend. cbn. now rewrite !app_assoc. Qed.

Lemma framed_ret {A} (a : A) : framed (ret a).
Proof. intros st. cbn. now rewrite extend_init. Qed.

Lemma framed_raise {A} (e : exn) : framed (@raise A e).
Proof. intros st. cbn. now rewrite extend_init. Qed.

Lemma framed_lift {A} (o : outcome A) : framed (lift o).
Proof. intros st. cbn. now rewrite extend_init. Qed.

Lemma framed_outbound (c : call) : framed (outbound c).
Proof. intros st. unfold outbound, extend. cbn. now rewrite app_nil_r. Qed.

Lemma framed_append_article (a : Article) : framed (append_article a).
Proof. intros st. unfold append_article, extend. cbn. now rewrite app_nil_r. Qed.

Lemma framed_bind {A B} (m : M A) (k : A -> M B) :
  framed m -> (forall a, framed (k a)) -> framed (bind m k).
Proof.
  intros Hm Hk st. unfold bind. rewrite (Hm st).
  destruct (m init) as [[a | e] d]; cbn [fst snd]; [|reflexivity].
  rewrite (Hk a (extend st d)), (Hk a d). cbn [fst snd].
  now rewrite extend_assoc.
Qed.

Lemma framed_except_ParseError (body : M unit) :
  framed body -> framed (except_ParseError body).
Proof.
  intros Hb st. unfold except_ParseError. rewrite (Hb st).
  destruct (body init) as [[[] | e] d]; cbn [fst snd]; [reflexivity|].
  now destruct e.
Qed.

Create HintDb framed.

#[local] Hint Resolve framed_ret framed_raise framed_lift framed_outbound
  framed_append_article framed_except_ParseError : framed.

Lemma framed_scrape_full_text (w : World) (pmcid : str) :
  framed (scrape_full_text w pmcid).
Proof.
  unfold scrape_full_text. apply framed_bind; [auto with framed|]. intros _.
  destruct (pmc_get w _) as [msg | soup].
  - apply framed_bind; auto with framed.
  - destruct (BS.find_attrs _ _ _); auto with framed.
Qed.

Lemma framed_get_details_for_pmids (w : World) (pmids : list atom) :
  framed (get_details_for_pmids w pmids).
Proof.
  destruct pmids as [| p r]; cbn [get_details_for_pmids]; [auto with framed|].
  apply framed_bind; [auto with framed|]. intros ids.
  apply framed_bind; [auto with framed|]. intros _.
  destruct (efetch w _); auto with framed.
Qed.

Lemma framed_records_loop (w : World) (request : SearchRequest)
    (records : list Element) : framed (records_loop w request records).
Proof.
  induction records as [| x rest IH]; cbn [records_loop]; [auto with framed|].
  apply framed_bind; [auto with framed|]. intros [a |].
  - apply framed_bind; [|intros _; exact IH].
    apply framed_bind; [|auto with framed].
    destruct (pmcid a) as [id |]; [|auto with framed].
    destruct (fetch_full_text request && truthy id); [|auto with framed].
    apply framed_bind; [apply framed_scrape_full_text | auto with framed].
  - apply framed_bind; [auto with framed | intros _; exact IH].
Qed.

Lemma framed_chunk_body (w : World) (request : SearchRequest)
    (pmid_list : list atom) (i : Z) : framed (chunk_body w request pmid_list i).
Proof.
  unfold chunk_body.
  apply framed_bind; [apply framed_get_details_for_pmids|].
  intros [xml_data |]; [|auto with framed].
  destruct (truthy xml_data); [|auto with framed].
  apply framed_except_ParseError.
  destruct (fromstring w _); [apply framed_records_loop | auto with framed].
Qed.

(** ** The search loop *)

(** [scrape_full_text] makes one call, leaves [articles_data] alone, and
    returns no empty string. *)
Lemma scrape_full_text_state (w : World) (pmcid : str) (st : state) :
  calls (snd (scrape_full_text w pmcid st))
  = calls st ++ [CallPMC (PMC_ARTICLE_URL ++ pmcid ++ lit "/")] /\
  articles_data (snd (scrape_full_text w pmcid st)) = articles_data st /\
  forall t, fst (scrape_full_text w pmcid st) = Returned t -> truthy t = true.
Proof.
  unfold scrape_full_text, bind, outbound, ret, lift.
  destruct (pmc_get w _) as [msg | soup].
  - destruct (index (splitlines msg) 0) as [line | e]; cbn [fst snd calls articles_data].
    + repeat split. now intros t [= <-].
    + repeat split. discriminate.
  - destruct (BS.find_attrs soup _ _); cbn [fst snd calls articles_data].
    + repeat split. intros t [= <-]. now destruct (truthy (join _ _)) eqn:E.
    + repeat split. now intros t [= <-].
Qed.


(** A loop that returns has added the yield of each chunk, in the order of
    the chunks. *)
Lemma chunks_loop_result (w : World) (request : SearchRequest)
    (pmid_list : list atom) (idxs : list Z) (st st' : state) :
  chunks_loop w request pmid_list idxs st = (Returned tt, st') ->
  articles_data st'
  = articles_data st ++ concat (List.map (chunk_yield w request pmid_list) idxs).
Proof.
  revert st. induction idxs as [| i rest IH]; intros st; cbn [chunks_loop List.map concat].
  - intros [= <-]. now rewrite app_nil_r.
  - unfold bind. rewrite (framed_chunk_body w request pmid_list i st).
    fold (chunk_yield w request pmid_list i).
    destruct (fst (chunk_body w request pmid_list i init)) as [[] | e]; [|discriminate].
    intros H. apply IH in H. rewrite H. unfold extend, chunk_yield.
    cbn [articles_data]. now rewrite <- app_assoc.
Qed.

(** What the endpoint returns, when it returns: nothing if there was no
    identifier to process, and otherwise the yields of the chunks in the
    order of the chunks. *)
Lemma search_endpoint_result (w : World) (request : SearchRequest)
    (articles : list Article) (made : list call) :
  run (search_endpoint w request) = (Returned articles, made) ->
  (pmid_list_of w request = [] /\ articles = []) \/
  exists idxs,
    range 0 (Z.of_nat (length (pmid_list_of w request))) (chunk_size request)
    = Returned idxs /\
    articles = concat (List.map (chunk_yield w request (pmid_list_of w request)) idxs).
Proof.
  unfold run. intros H. destruct (pmid_list_of w request) as [| p r] eqn:E.
  - left. split; [reflexivity|].
    destruct (search_outcome w request) as [ids | e] eqn:Hs.
    + rewrite (search_endpoint_empty w request init (ex_intro _ ids Hs) E) in H.
      now injection H as <- _.
    + destruct (search_endpoint_raises w request init e Hs) as (st' & He).
      rewrite He in H. discriminate.
  - right. assert (Hne : pmid_list_of w request <> []) by congruence.
    rewrite (search_endpoint_nonempty w request init Hne), E in H.
    unfold bind at 1, lift in H.
    destruct (range 0 _ (chunk_size request)) as [idxs | e]; [|discriminate].
    exists idxs. split; [reflexivity|].
    match type of H with context [bind _ _ ?s] => set (st0 := s) in H end.
    unfold bind in H.
    destruct (chunks_loop w request (p :: r) idxs st0) as [[[] | e] st'] eqn:Hl;
      [|discriminate].
    apply chunks_loop_result in Hl. unfold get_articles_data in H.
    injection H as <- _. exact Hl.
Qed.




(** ** The limit *)

Lemma length_slice {A} (l : list A) (a b : Z) :
  0 <= a <= b ->
  Z.of_nat (length (slice l a b))
  = Z.min b (Z.of_nat (length l)) - Z.min a (Z.of_nat (length l)).
Proof.
  intros Hab. unfold slice, clamp.
  destruct (a <? 0) eqn:Ea; [apply Z.ltb_lt in Ea; lia|].
  destruct (b <? 0) eqn:Eb; [apply Z.ltb_lt in Eb; lia|].
  rewrite List.length_firstn, List.length_skipn. lia.
Qed.

Lemma range_positive_step (stop step : Z) :
  0 < step ->
  range 0 stop step
  = Returned (List.map (fun k => 0 + Z.of_nat k * step)
                (seq 0 (Z.to_nat (if 0 <? stop then (stop - 0 - 1) / step + 1 else 0)))).
Proof.
  intros Hs. unfold range.
  destruct (step =? 0) eqn:E0; [apply Z.eqb_eq in E0; lia|].
  destruct (0 <? step) eqn:E1; [reflexivity | apply Z.ltb_ge in E1; lia].
Qed.

Lemma chunk_at_take_drop {A} (request : SearchRequest) (l : list A) (k : nat) :
  0 < chunk_size request ->
  chunk_at request l (0 + Z.of_nat k * chunk_size request)
  = take (Z.to_nat (chunk_size request)) (drop (k * Z.to_nat (chunk_size request)) l).
Proof.
  intros Hcs. unfold chunk_at, slice, clamp.
  set (cs := chunk_size request) in *. set (n := Z.of_nat (length l)).
  assert (Hi : 0 <= Z.of_nat k * cs) by (apply Z.mul_nonneg_nonneg; lia).
  destruct (0 + Z.of_nat k * cs <? 0) eqn:E1; [apply Z.ltb_lt in E1; lia|].
  destruct (0 + Z.of_nat k * cs + cs <? 0) eqn:E2; [apply Z.ltb_lt in E2; lia|].
  assert (Hk : Z.to_nat (Z.of_nat k * cs) = (k * Z.to_nat cs)%nat)
    by (rewrite Z2Nat.inj_mul, Nat2Z.id; lia).
  rewrite Z.add_0_l.
  destruct (Z.le_gt_cases n (Z.of_nat k * cs)) as [Hge | Hlt].
  - rewrite (Z.min_r (Z.of_nat k * cs)) by lia. unfold n. rewrite Nat2Z.id.
    rewrite !drop_ge by lia. now rewrite !take_nil.
  - rewrite (Z.min_l (Z.of_nat k * cs)) by lia. rewrite Hk.
    destruct (Z.le_gt_cases (Z.of_nat k * cs + cs) n) as [Hfit | Hover].
    + rewrite Z.min_l by lia. f_equal. lia.
    + rewrite Z.min_r by lia.
      assert (Hd : length (drop (k * Z.to_nat cs) l)
                   = Z.to_nat (n - Z.of_nat k * cs))
        by (rewrite length_drop; unfold n; lia).
      rewrite !take_ge; [reflexivity | lia | lia].
Qed.

Lemma chunks_concat {A} (request : SearchRequest) (l : list A) (c : nat) :
  0 < chunk_size request ->
  concat (List.map (chunk_at request l)
            (List.map (fun k => 0 + Z.of_nat k * chunk_size request) (seq 0 c)))
  = take (c * Z.to_nat (chunk_size request)) l.
Proof.
  intros Hcs. induction c as [| c IH]; [reflexivity|].
  rewrite seq_S, !List.map_app, concat_app, IH. cbn [List.map concat].
  rewrite app_nil_r, Nat.add_0_l, (chunk_at_take_drop request l c Hcs).
  rewrite take_take_drop. f_equal. lia.
Qed.

(** The chunk starts of a list of [n] identifiers cover it, and each is
    inside it. *)
Lemma chunk_count (n cs : Z) :
  0 < cs -> 0 <= n ->
  let c := if 0 <? n then (n - 0 - 1) / cs + 1 else 0 in
  0 <= c /\ n <= c * cs /\ forall k, 0 <= k < c -> k * cs < n.
Proof.
  intros Hcs Hn. cbn zeta. destruct (0 <? n) eqn:E.
  - apply Z.ltb_lt in E. rewrite Z.sub_0_r.
    pose proof (Z.mul_succ_div_gt (n - 1) cs Hcs) as Hgt.
    pose proof (Z.mul_div_le (n - 1) cs Hcs) as Hle.
    assert (Hq : 0 <= (n - 1) / cs) by (apply Z.div_pos; lia).
    split; [lia|]. split; [lia|]. intros k Hk.
    assert (k * cs <= (n - 1) / cs * cs) by (apply Z.mul_le_mono_nonneg_r; lia).
    lia.
  - apply Z.ltb_ge in E. split; [lia|]. split; [lia|]. intros k Hk. lia.
Qed.

(** The chunks of the loop, as a fact shared by the properties below. *)
Lemma loop_chunks {A} (request : SearchRequest) (l : list A) :
  0 < chunk_size request ->
  exists idxs,
    range 0 (Z.of_nat (length l)) (chunk_size request) = Returned idxs /\
    concat (List.map (chunk_at request l) idxs) = l /\
    List.Forall (fun i => chunk_at request l i <> [] /\
                          Z.of_nat (length (chunk_at request l i)) <= chunk_size request)
                idxs.
Proof.
  intros Hcs. rewrite (range_positive_step _ _ Hcs). eexists. split; [reflexivity|].
  destruct (chunk_count (Z.of_nat (length l)) (chunk_size request) Hcs ltac:(lia))
    as (Hc0 & Hcover & Hin).
  set (c := if 0 <? Z.of_nat (length l)
            then (Z.of_nat (length l) - 0 - 1) / chunk_size request + 1 else 0) in *.
  split.
  - rewrite (chunks_concat request l _ Hcs). apply take_ge.
    apply Nat2Z.inj_le. rewrite Nat2Z.inj_mul, !Z2Nat.id by lia. exact Hcover.
  - apply List.Forall_forall. intros i Hi.
    apply List.in_map_iff in Hi as (k & <- & Hk). apply in_seq in Hk.
    specialize (Hin (Z.of_nat k) ltac:(lia)).
    assert (Hx : 0 <= Z.of_nat k * chunk_size request)
      by (apply Z.mul_nonneg_nonneg; lia).
    assert (Hlen := length_slice l (0 + Z.of_nat k * chunk_size request)
                      (0 + Z.of_nat k * chunk_size request + chunk_size request)
                      ltac:(lia)).
    fold (chunk_at request l (0 + Z.of_nat k * chunk_size request)) in Hlen.
    split; [|lia].
    intros He. rewrite He in Hlen. cbn [length] in Hlen. lia.
Qed.

(** Whatever the batch size, the chunks of a loop that starts hold no
    more identifiers than the list. *)
Lemma chunks_cover {A} (request : SearchRequest) (l : list A) (idxs : list Z) :
  range 0 (Z.of_nat (length l)) (chunk_size request) = Returned idxs ->
  (length (concat (List.map (chunk_at request l) idxs)) <= length l)%nat.
Proof.
  intros Hr. destruct (Z.lt_trichotomy (chunk_size request) 0) as [Hneg | [H0 | Hpos]].
  - rewrite range_negative_step in Hr by lia. injection Hr as <-. cbn. lia.
  - rewrite H0 in Hr. discriminate.
  - destruct (loop_chunks request l Hpos) as (idxs' & Hr' & Hc & _).
    rewrite Hr in Hr'. injection Hr' as <-. now rewrite Hc.
Qed.

(** Whatever its outcome, the record loop adds at most one article per
    record. *)
Lemma records_loop_length (w : World) (request : SearchRequest)
    (records : list Element) (st : state) :
  (length (articles_data (snd (records_loop w request records st)))
   <= length (articles_data st) + length records)%nat.
Proof.
  revert st. induction records as [| x rest IH]; intros st; [cbn; lia|].
  cbn [records_loop length]. destruct (parse_article_xml_total x) as [r Hr].
  unfold bind at 1, lift. rewrite Hr. destruct r as [a |].
  - assert (Hatt : forall (m : M Article),
               articles_data (snd (m st)) = articles_data st ->
               (length (articles_data (snd
                  ((do! _ := (do! a' := m in append_article a') in
                    records_loop w request rest) st)))
                <= length (articles_data st) + S (length rest))%nat).
    { intros m Hs. unfold bind. destruct (m st) as [[a' | e] st1]; cbn [snd] in *.
      - unfold append_article. etransitivity; [apply IH|].
        cbn [articles_data]. rewrite List.length_app, Hs. cbn [length]. lia.
      - rewrite Hs. lia. }
    destruct (pmcid a) as [id |]; [|now apply Hatt].
    destruct (fetch_full_text request && truthy id); [|now apply Hatt].
    apply Hatt. destruct (scrape_full_text_state w id st) as (_ & Hd & _).
    unfold bind, ret. now destruct (scrape_full_text w id st) as [[t | e] st1].
  - unfold bind at 1, ret at 1. etransitivity; [apply IH | lia].
Qed.

(** A chunk yields no more articles than its answer has records. *)
Lemma chunk_yield_bound (w : World) (request : SearchRequest)
    (pmid_list : list atom) (i : Z) :
  (forall ids xml_data root,
     join_ids (chunk_at request pmid_list i) = Returned ids ->
     efetch w ids = Body xml_data ->
     fromstring w (safe_xml_of xml_data) = Some root ->
     (length (findall root p_PubmedArticle)
      <= length (chunk_at request pmid_list i))%nat) ->
  (length (chunk_yield w request pmid_list i)
   <= length (chunk_at request pmid_list i))%nat.
Proof.
  intros Hb. unfold chunk_yield, chunk_body.
  set (chunk := chunk_at request pmid_list i) in *.
  unfold bind at 1, get_details_for_pmids.
  destruct chunk as [| p r] eqn:Ec; [cbn; lia|]. rewrite <- Ec in *. clear Ec p r.
  unfold bind at 1, lift at 1.
  destruct (join_ids chunk) as [ids | e] eqn:Ej; [|cbn; lia].
  unfold bind at 1, outbound at 1.
  destruct (efetch w ids) as [msg | xml_data] eqn:Ef; [cbn; lia|].
  unfold ret at 1. destruct (truthy xml_data); [|cbn; lia].
  unfold except_ParseError.
  destruct (fromstring w (safe_xml_of xml_data)) as [root |] eqn:Ep; [|cbn; lia].
  match goal with |- context [records_loop w request ?rs ?s] =>
    pose proof (records_loop_length w request rs s) as Hl;
    destruct (records_loop w request rs s) as [[[] | e] st2]
  end; unfold init in Hl; cbn [snd articles_data length] in *;
    specialize (Hb ids xml_data root eq_refl Ef Ep).
  - lia.
  - destruct e; cbn [snd]; lia.
Qed.

Lemma concat_length_le {A B} (f : Z -> list A) (g : Z -> list B) (idxs : list Z) :
  List.Forall (fun i => (length (f i) <= length (g i))%nat) idxs ->
  (length (concat (List.map f idxs)) <= length (concat (List.map g idxs)))%nat.
Proof.
  induction 1 as [| i rest Hi Hrest IH]; [reflexivity|].
  cbn [List.map concat]. rewrite !List.length_app. lia.
Qed.

(** C6, as the code has it: a limit that is not negative caps the
    identifiers processed; and when moreover no detail answer holds more
    records than identifiers were asked for, a list the endpoint returns has
    at most [limit] articles. *)
Theorem limit_caps_the_result (w : World) (request : SearchRequest) :
  0 <= limit request ->
  Z.of_nat (length (pmid_list_of w request)) <= limit request /\
  (answers_bounded w request ->
   forall articles made,
     run (search_endpoint w request) = (Returned articles, made) ->
     Z.of_nat (length articles) <= limit request).
Proof.
  intros Hlim.
  assert (Hids : Z.of_nat (length (pmid_list_of w request)) <= limit request)
    by (now apply length_slice_to).
  split; [exact Hids|]. intros Hbound articles made Hrun.
  apply search_endpoint_result in Hrun as [[_ ->] | (idxs & Hr & ->)]; [cbn; lia|].
  etransitivity; [|exact Hids]. apply Nat2Z.inj_le.
  etransitivity; [|exact (chunks_cover request _ idxs Hr)].
  apply concat_length_le, List.Forall_forall. intros i Hin.
  apply chunk_yield_bound. intros ids xml_data root Hj Hf Hp.
  exact (Hbound idxs i ids xml_data root Hr Hin Hj Hf Hp).
Qed.

(** C6 as stated fails.  With a limit of 1, smaller than the three
    identifiers found, one identifier is processed, its detail answer holds
    two records, and the endpoint returns two articles, whichever way the
    set is listed.  With a limit of -1 two identifiers are processed and
    four articles returned. *)
Lemma limit_is_not_a_cap :
  List.Forall
    (fun flip =>
       let w := doubling_world flip in
       size (found_pmids w (sample_request 1 1)) = 3%nat /\
       (exists articles made,
          run (search_endpoint w (sample_request 1 1)) = (Returned articles, made) /\
          length (pmid_list_of w (sample_request 1 1)) = 1%nat /\
          length articles = 2%nat /\
          ~ Z.of_nat (length articles) <= limit (sample_request 1 1)) /\
       (exists articles made,
          run (search_endpoint w (sample_request (-1) 1)) = (Returned articles, made) /\
          length (pmid_list_of w (sample_request (-1) 1)) = 2%nat /\
          length articles = 4%nat))
    [false; true].
Proof.
  repeat constructor; try (vm_compute; reflexivity);
    do 2 eexists; (split; [vm_compute; reflexivity|]); repeat split;
    cbn; lia.
Qed.

Lemma limit_caps_the_result_witness :
  0 <= limit (sample_request 2 1) /\
  Z.of_nat (length (pmid_list_of sample_world (sample_request 2 1))) <= 2 /\
  exists articles made,
    run (search_endpoint sample_world (sample_request 2 1)) = (Returned articles, made) /\
    Z.of_nat (length articles) <= 2.
Proof.
  assert (Hlim : 0 <= limit (sample_request 2 1)) by (cbn; lia).
  destruct (limit_caps_the_result sample_world (sample_request 2 1) Hlim) as [Hids Hres].
  split; [exact Hlim|]. split; [exact Hids|].
  do 2 eexists. split; [reflexivity|]. eapply Hres; [|reflexivity].
  intros idxs i ids xml_data root Hr Hin Hj Hf Hp.
  vm_compute in Hr. injection Hr as <-.
  destruct Hin as [<- | [<- | []]].
  - vm_compute in Hj. injection Hj as <-.
    vm_compute in Hf. injection Hf as <-. vm_compute in Hp. discriminate.
  - vm_compute in Hj. injection Hj as <-.
    vm_compute in Hf. injection Hf as <-. vm_compute in Hp.
    injection Hp as <-. vm_compute. lia.
Defined.

(** ** Whitespace *)

Lemma spaced_app (a b : str) :
  spaced a = true -> spaced b = true -> spaced (a ++ b) = true.
Proof.
  intros Ha Hb. induction a as [| c r IH]; [exact Hb|].
  cbn [spaced app] in *. apply andb_true_iff in Ha as [Hc Hr].
  rewrite (IH Hr), andb_true_r.
  destruct (isspace c); [|reflexivity].
  destruct r as [| d r']; [now rewrite andb_false_r in Hc | exact Hc].
Qed.

Lemma spaced_ends (s : str) : spaced s = true -> ends_ws s = false.
Proof.
  induction s as [| c r IH]; [reflexivity|]. cbn [spaced ends_ws].
  intros H. apply andb_true_iff in H as [Hc Hr].
  destruct r as [| d r']; [|now apply IH].
  destruct (isspace c); [now rewrite andb_false_r in Hc | reflexivity].
Qed.

Lemma solid_spaced (s : str) : solid s = true -> spaced s = true.
Proof.
  induction s as [| c r IH]; [reflexivity|]. cbn [solid forallb spaced].
  intros H. apply andb_true_iff in H as [Hc Hr].
  apply negb_true_iff in Hc. rewrite Hc. now apply IH.
Qed.

Lemma solid_tight (s : str) : s <> [] -> solid s = true -> tight s.
Proof.
  intros Hne Hs. split; [exact Hne|]. split; [|now apply solid_spaced].
  destruct s as [| c r]; [reflexivity|].
  cbn [solid forallb] in Hs. now apply andb_true_iff in Hs as [Hc _].
Qed.

Lemma tight_normalized (s : str) : tight s -> normalized s = true.
Proof. intros (_ & H1 & H2). unfold normalized. now rewrite H1, H2. Qed.

Lemma lstrip_starts (s : str) : starts_clean (lstrip s) = true.
Proof.
  induction s as [| c r IH]; [reflexivity|]. cbn [lstrip].
  destruct (isspace c) eqn:E; [exact IH|]. cbn [starts_clean]. now rewrite E.
Qed.

Lemma rstrip_ends (s : str) : ends_ws (rstrip s) = false.
Proof.
  induction s as [| c r IH]; [reflexivity|]. cbn [rstrip].
  destruct (rstrip r) as [| d r'].
  - destruct (isspace c) eqn:E; [reflexivity|]. cbn [ends_ws]. exact E.
  - exact IH.
Qed.

Lemma rstrip_starts (s : str) :
  starts_clean s = true -> starts_clean (rstrip s) = true.
Proof.
  destruct s as [| c r]; [reflexivity|]. cbn [starts_clean rstrip]. intros Hc.
  destruct (rstrip r); [|exact Hc].
  apply negb_true_iff in Hc. rewrite Hc. cbn [starts_clean]. now rewrite Hc.
Qed.

Lemma lstrip_id (s : str) : starts_clean s = true -> lstrip s = s.
Proof.
  destruct s as [| c r]; [reflexivity|]. cbn [starts_clean lstrip]. intros Hc.
  apply negb_true_iff in Hc. now rewrite Hc.
Qed.

Lemma rstrip_id (s : str) : ends_ws s = false -> rstrip s = s.
Proof.
  induction s as [| c r IH]; [reflexivity|]. cbn [ends_ws rstrip]. intros H.
  destruct r as [| d r']; [cbn [rstrip]; now rewrite H|].
  rewrite (IH H). reflexivity.
Qed.

(** [strip] leaves no whitespace at either end, and leaves a string that
    has none there as it is. *)
Lemma strip_trimmed (s : str) : trimmed (strip s) = true.
Proof.
  unfold trimmed, strip.
  rewrite (rstrip_starts _ (lstrip_starts s)), rstrip_ends. reflexivity.
Qed.

Lemma strip_id (s : str) :
  starts_clean s = true -> ends_ws s = false -> strip s = s.
Proof. intros H1 H2. unfold strip. rewrite (lstrip_id s H1). now apply rstrip_id. Qed.

Lemma sub_ws_true_head (s : str) :
  s <> [] -> ends_ws s = false ->
  exists d t, sub_ws true s = d :: t /\ isspace d = false.
Proof.
  induction s as [| c r IH]; [congruence|]. intros _ He. cbn [sub_ws].
  destruct (isspace c) eqn:E; [|eauto].
  cbn [ends_ws] in He. destruct r as [| d r']; [congruence|].
  apply IH; [congruence | exact He].
Qed.

Lemma sub_ws_spaced (s : str) (in_run : bool) :
  ends_ws s = false -> spaced (sub_ws in_run s) = true.
Proof.
  revert in_run. induction s as [| c r IH]; intros in_run He; [reflexivity|].
  cbn [sub_ws].
  assert (Hr : r <> [] -> ends_ws r = false)
    by (intros Hne; cbn [ends_ws] in He; now destruct r).
  destruct (isspace c) eqn:E.
  - assert (Hne : r <> []) by (intros ->; cbn [ends_ws] in He; congruence).
    destruct in_run; [apply IH; auto|].
    cbn [spaced]. rewrite (IH true (Hr Hne)), andb_true_r.
    destruct (sub_ws_true_head r Hne (Hr Hne)) as (d & t & -> & Hd).
    now rewrite Hd.
  - cbn [spaced]. rewrite E. cbn [andb].
    destruct r as [| d r']; [reflexivity|]. apply IH, Hr. congruence.
Qed.

(** What [get_text] does to the text of a node. *)
Lemma clean_up_normalized (t : str) : normalized (re_sub_ws (strip t)) = true.
Proof.
  pose proof (strip_trimmed t) as Ht. unfold trimmed in Ht.
  apply andb_true_iff in Ht as [Hs He]. apply negb_true_iff in He.
  unfold normalized, re_sub_ws. rewrite (sub_ws_spaced _ false He), andb_true_r.
  destruct (strip t) as [| c r]; [reflexivity|].
  cbn [starts_clean] in Hs. apply negb_true_iff in Hs.
  cbn [sub_ws]. rewrite Hs. cbn [starts_clean]. now rewrite Hs.
Qed.

Lemma get_text_normalized (element : option Element) (path : list step) (s : str) :
  get_text element path = Returned s -> normalized s = true.
Proof.
  unfold get_text. destruct element as [el |]; [|discriminate].
  destruct (find el path) as [node |]; [|now intros [= <-]].
  destruct (text node) as [t |]; [|now intros [= <-]].
  intros [= <-]. apply clean_up_normalized.
Qed.

Lemma or_else_normalized (a b : str) :
  normalized a = true -> normalized b = true -> normalized (or_else a b) = true.
Proof. intros Ha Hb. unfold or_else. now destruct (truthy a). Qed.

Lemma truthy_nonempty (s : str) : truthy s = true -> s <> [].
Proof. now destruct s. Qed.

Lemma normalized_tight (s : str) : s <> [] -> normalized s = true -> tight s.
Proof.
  intros Hne H. apply andb_true_iff in H as [H1 H2]. now split.
Qed.

Lemma tight_space_tight (a b : str) : tight a -> tight b -> tight (a ++ SP :: b).
Proof.
  intros (Ha & Has & Hasp) (Hb & Hbs & Hbsp).
  split; [now destruct a|]. split; [now destruct a|].
  apply spaced_app; [exact Hasp|].
  destruct b as [| d r]; [congruence|].
  cbn [starts_clean] in Hbs. cbn [spaced] in *. now rewrite Hbs, Hbsp.
Qed.

(** The name of one author: [f"{fore or ''} {last}".strip()]. *)
Lemma author_name_tight (fore last : str) :
  normalized fore = true -> tight last ->
  tight (strip (or_else fore [] ++ lit " " ++ last)).
Proof.
  intros Hf Hl. change (lit " ") with [SP]. cbn [app].
  destruct fore as [| c r].
  - cbn [or_else truthy app]. unfold strip.
    change (lstrip (SP :: last)) with (lstrip last).
    fold (strip last). destruct Hl as (Hne & Hs & Hsp).
    rewrite (strip_id last Hs (spaced_ends _ Hsp)). now split.
  - cbn [or_else truthy].
    assert (Ht : tight ((c :: r) ++ SP :: last)).
    { apply tight_space_tight; [|exact Hl]. apply normalized_tight; congruence. }
    destruct Ht as (Hne & Hs & Hsp).
    rewrite (strip_id _ Hs (spaced_ends _ Hsp)). now split.
Qed.

Lemma obind_Returned {A B} (m : outcome A) (k : A -> outcome B) (b : B) :
  obind m k = Returned b -> exists a, m = Returned a /\ k a = Returned b.
Proof. destruct m as [a | e]; [eauto | discriminate]. Qed.

Lemma authors_of_tight (l : list Element) (names : list str) :
  authors_of l = Returned names -> Forall tight names.
Proof.
  revert names. induction l as [| a r IH]; intros names; cbn [authors_of].
  - intros [= <-]. constructor.
  - intros H. apply obind_Returned in H as (keep & Hk & H).
    destruct (truthy keep) eqn:Et; [|now apply IH].
    apply obind_Returned in H as (fore & Hf & H).
    apply obind_Returned in H as (last & Hl & H).
    apply obind_Returned in H as (rest & Hr & H).
    injection H as <-. constructor; [|now apply IH].
    apply author_name_tight; [now apply get_text_normalized in Hf|].
    rewrite Hk in Hl. injection Hl as <-.
    apply normalized_tight; [now apply truthy_nonempty|].
    now apply get_text_normalized in Hk.
Qed.

(** [", ".join(authors_list)] *)
Lemma join_comma_tight (names : list str) :
  Forall tight names -> names <> [] -> tight (join (lit ", ") names).
Proof.
  induction 1 as [| p rest Hp Hrest IH]; [congruence|]. intros _.
  destruct rest as [| q rest']; [exact Hp|].
  change (join (lit ", ") (p :: q :: rest'))
    with (p ++ [44%N] ++ SP :: join (lit ", ") (q :: rest')).
  specialize (IH ltac:(congruence)).
  destruct Hp as (Hne & Hs & Hsp).
  split; [now destruct p|]. split; [now destruct p|].
  apply spaced_app; [exact Hsp|].
  pose proof (tight_space_tight [44%N] _ ltac:(now split) IH) as (_ & _ & H).
  exact H.
Qed.

(** The tokens of [split] are not empty and hold no whitespace. *)
Lemma split_from_solid (s cur : str) :
  solid cur = true ->
  Forall (fun t => t <> [] /\ solid t = true) (split_from cur s).
Proof.
  revert cur. induction s as [| c r IH]; intros cur Hcur; cbn [split_from].
  - destruct cur; [constructor|]. constructor; [|constructor]. now split.
  - destruct (isspace c) eqn:E.
    + destruct cur; [now apply IH|].
      constructor; [now split | now apply IH].
    + apply IH. unfold solid. rewrite forallb_app. fold (solid cur).
      rewrite Hcur. cbn. now rewrite E.
Qed.

Lemma index_In {A} (l : list A) (i : nat) (x : A) : index l i = Returned x -> In x l.
Proof.
  unfold index. destruct (nth_error l i) eqn:E; [|discriminate].
  intros [= <-]. eapply nth_error_In, E.
Qed.

Lemma index_last_In {A} (l : list A) (x : A) : index_last l = Returned x -> In x l.
Proof.
  unfold index_last. destruct (rev l) eqn:E; [discriminate|].
  intros [= <-]. apply in_rev. rewrite E. now left.
Qed.

Lemma first_author_of_normalized (author0 s : str) :
  first_author_of author0 = Returned s -> normalized s = true.
Proof.
  unfold first_author_of.
  pose proof (split_from_solid author0 [] eq_refl) as Hparts.
  fold (split author0) in Hparts. rewrite List.Forall_forall in Hparts.
  intros H. apply obind_Returned in H as (long & _ & H).
  destruct long.
  - apply obind_Returned in H as (pl & Hpl & H).
    apply obind_Returned in H as (p0 & Hp0 & H).
    apply obind_Returned in H as (c & Hc & H).
    injection H as <-.
    destruct (Hparts pl (index_last_In _ _ Hpl)) as [Hne Hsol].
    destruct (Hparts p0 (index_In _ _ _ Hp0)) as [_ Hsol0].
    assert (Hcs : isspace c = false).
    { apply index_In in Hc. unfold solid in Hsol0.
      rewrite forallb_forall in Hsol0. now apply negb_true_iff, Hsol0. }
    destruct (solid_tight pl Hne Hsol) as (_ & Hs & Hsp).
    unfold normalized. apply andb_true_iff. split; [now destruct pl|].
    apply spaced_app; [exact Hsp|].
    change (spaced (44 :: SP :: c :: lit ".")%N = true).
    cbn [spaced]. rewrite Hcs. reflexivity.
  - destruct (length (split author0) =? 1)%nat.
    + apply index_In in H. destruct (Hparts s H) as [Hne Hsol].
      now apply tight_normalized, solid_tight.
    + now injection H as <-.
Qed.

(** C2, as the code has it: in every record the parser accepts, the
    identifier, title, author list, first-author display, journal and year
    are whitespace-normalized; the abstract has no whitespace at its ends;
    the full-text identifier is the text of its node, as it stands. *)
Theorem accepted_fields_whitespace (x : Element) (a : Article) :
  parse_article_xml x = Returned (Some a) ->
  normalized (pmid a) = true /\ normalized (title a) = true /\
  normalized (authors a) = true /\ normalized (first_author a) = true /\
  (exists j, journal a = Some j /\ normalized j = true) /\
  normalized (year a) = true /\
  trimmed (abstract a) = true /\
  pmcid a = match find x p_pmc with
            | Some n => text n
            | None => Some []
            end.
Proof.
  unfold parse_article_xml. destruct (parse_fields x) as [r | e] eqn:E; [|discriminate].
  intros [= ->]. unfold parse_fields in E.
  apply obind_Returned in E as (pmid0 & Hpmid & E).
  destruct (truthy pmid0); cbn [negb] in E; [|discriminate].
  apply obind_Returned in E as (title0 & Htitle & E).
  apply obind_Returned in E as (names & Hnames & E).
  apply obind_Returned in E as (fa & Hfa & E).
  apply obind_Returned in E as (journal0 & Hjournal & E).
  apply obind_Returned in E as (year0 & Hyear0 & E).
  apply obind_Returned in E as (yr & Hyr & E).
  injection E as <-. cbn [pmid title authors first_author journal year abstract
                            pmcid new_Article].
  apply get_text_normalized in Hpmid, Htitle, Hjournal, Hyear0.
  apply authors_of_tight in Hnames.
  repeat split.
  - exact Hpmid.
  - now apply or_else_normalized.
  - unfold or_else. destruct (truthy (join (lit ", ") names)) eqn:Et; [|reflexivity].
    apply tight_normalized, join_comma_tight; [exact Hnames|].
    intros ->. discriminate.
  - destruct names as [| author0 rest]; [now injection Hfa as <-|].
    now apply first_author_of_normalized in Hfa.
  - eexists. split; [reflexivity|]. now apply or_else_normalized.
  - destruct (truthy year0).
    + now injection Hyr as <-.
    + apply obind_Returned in Hyr as (year1 & Hy1 & Hyr). injection Hyr as <-.
      apply get_text_normalized in Hy1. now apply or_else_normalized.
  - unfold or_else.
    destruct (truthy (strip _)); [apply strip_trimmed | reflexivity].
Qed.

(** C2 as stated fails: the parser accepts this record, and neither its
    abstract, which keeps a run of two spaces, nor its full-text
    identifier, which keeps the spaces around it, is normalized. *)
Lemma abstract_and_pmcid_keep_whitespace :
  exists a,
    parse_article_xml (sample_record (lit "42") (lit "Roots  grow.") (lit " PMC9 "))
    = Returned (Some a) /\
    abstract a = lit "Roots  grow." /\ normalized (abstract a) = false /\
    pmcid a = Some (lit " PMC9 ") /\ normalized (lit " PMC9 ") = false.
Proof. eexists. repeat split. Qed.

Lemma accepted_fields_whitespace_witness :
  exists a,
    parse_article_xml (sample_record (lit " 42 ") (lit " Roots  grow. ") (lit " PMC9 "))
    = Returned (Some a) /\
    normalized (title a) = true /\ trimmed (abstract a) = true /\
    pmcid a = Some (lit " PMC9 ").
Proof.
  eexists. split; [reflexivity|].
  match goal with |- context [normalized (title ?a)] =>
    destruct (accepted_fields_whitespace
                (sample_record (lit " 42 ") (lit " Roots  grow. ") (lit " PMC9 "))
                a eq_refl)
      as (_ & Ht & _ & _ & _ & _ & Ha & Hp)
  end.
  split; [exact Ht|]. split; [exact Ha|]. exact Hp.
Defined.

Lemma chunk_size_is_not_checked_witness :
  pmid_list_of sample_world (sample_request 5 0) <> [] /\
  fst (run (search_endpoint sample_world (sample_request 5 0))) = Raised ValueError /\
  run (search_endpoint sample_world (sample_request 5 (-2)))
  = (Returned [], [CallESearch (lit "(roots) NOT preprint[pt]")]).
Proof.
  assert (H0 : pmid_list_of sample_world (sample_request 5 0) <> [])
    by (vm_compute; discriminate).
  assert (H2 : pmid_list_of sample_world (sample_request 5 (-2)) <> [])
    by (vm_compute; discriminate).
  split; [exact H0|]. split.
  - apply (proj1 (chunk_size_is_not_checked sample_world (sample_request 5 0) H0)).
    reflexivity.
  - apply (proj2 (chunk_size_is_not_checked sample_world (sample_request 5 (-2)) H2)).
    reflexivity.
Defined.

(** * Further properties of the code *)

(** ** get_text: what the clean-up keeps *)

Lemma rstrip_cons_solid (c : char) (r : str) :
  isspace c = false -> rstrip (c :: r) = c :: rstrip r.
Proof. intros Hc. cbn [rstrip]. destruct (rstrip r); [now rewrite Hc | reflexivity]. Qed.

Lemma rstrip_cons_ws (c : char) (r : str) :
  isspace c = true ->
  rstrip (c :: r) = match rstrip r with [] => [] | _ => c :: rstrip r end.
Proof. intros Hc. cbn [rstrip]. destruct (rstrip r); [now rewrite Hc | reflexivity]. Qed.

Lemma sub_ws_true_rstrip_ws (c : char) (r : str) :
  isspace c = true -> sub_ws true (rstrip (c :: r)) = sub_ws true (rstrip r).
Proof.
  intros Hc. rewrite (rstrip_cons_ws c r Hc).
  destruct (rstrip r); [reflexivity|]. cbn [sub_ws]. now rewrite Hc.
Qed.

Lemma sub_ws_true_nil (s : str) :
  ends_ws s = false -> sub_ws true s = [] -> s = [].
Proof.
  intros He Hn. destruct s as [| c r]; [reflexivity|].
  destruct (sub_ws_true_head (c :: r) ltac:(congruence) He) as (d & t & Hd & _).
  congruence.
Qed.

Lemma join_cons_nonempty (sep p : str) (rest : list str) :
  p <> [] -> join sep (p :: rest) <> [].
Proof. intros Hp. cbn [join]. destruct rest; now destruct p. Qed.

(** The words of a text joined by single spaces, with [cur] the word
    being read: what [strip] and [re.sub] leave of the rest of the text. *)
Lemma join_split_from (s : str) :
  (forall cur, cur <> [] -> solid cur = true ->
     join [SP] (split_from cur s) = cur ++ sub_ws false (rstrip s)) /\
  join [SP] (split_from [] s) = sub_ws true (rstrip s).
Proof.
  induction s as [| c r [IHcur IHnil]].
  - split; [|reflexivity]. intros cur Hne _. cbn. destruct cur; [congruence|].
    now rewrite app_nil_r.
  - destruct (isspace c) eqn:Ec.
    + split.
      * intros cur Hne Hsol. cbn [split_from]. rewrite Ec.
        destruct cur as [| c0 cur']; [congruence|]. set (cur := c0 :: cur') in *.
        rewrite (rstrip_cons_ws c r Ec).
        destruct (split_from [] r) as [| q rest] eqn:Es.
        -- cbn [join] in IHnil |- *. symmetry in IHnil.
           apply (sub_ws_true_nil _ (rstrip_ends r)) in IHnil. rewrite IHnil.
           cbn [sub_ws]. now rewrite app_nil_r.
        -- assert (Hq : q <> []).
           { pose proof (split_from_solid r [] eq_refl) as Hf. rewrite Es in Hf.
             now inversion Hf as [| ? ? [Hq _] _]. }
           change (join [SP] (cur :: q :: rest))
             with (cur ++ [SP] ++ join [SP] (q :: rest)).
           rewrite IHnil.
           destruct (rstrip r) as [| d r'] eqn:Er.
           { exfalso. apply (join_cons_nonempty [SP] q rest Hq). now rewrite IHnil. }
           cbn [sub_ws]. now rewrite Ec.
      * cbn [split_from]. rewrite Ec, IHnil. symmetry.
        now apply sub_ws_true_rstrip_ws.
    + assert (Hstep : forall cur, solid cur = true ->
                join [SP] (split_from (cur ++ [c]) r)
                = cur ++ c :: sub_ws false (rstrip r)).
      { intros cur Hsol. rewrite IHcur.
        - now rewrite <- app_assoc.
        - now destruct cur.
        - unfold solid. rewrite forallb_app. fold (solid cur). rewrite Hsol.
          cbn. now rewrite Ec. }
      split.
      * intros cur _ Hsol. cbn [split_from]. rewrite Ec, (rstrip_cons_solid c r Ec).
        cbn [sub_ws]. rewrite Ec. now apply Hstep.
      * cbn [split_from]. rewrite Ec, (rstrip_cons_solid c r Ec).
        cbn [sub_ws]. rewrite Ec. exact (Hstep [] eq_refl).
Qed.

Lemma sub_ws_strip (t : str) :
  sub_ws false (strip t) = sub_ws true (rstrip t).
Proof.
  unfold strip. induction t as [| c r IH]; [reflexivity|].
  cbn [lstrip]. destruct (isspace c) eqn:Ec.
  - rewrite IH. symmetry. now apply sub_ws_true_rstrip_ws.
  - rewrite (rstrip_cons_solid c r Ec). cbn [sub_ws]. now rewrite Ec.
Qed.

(** X1: the clean-up of [get_text] keeps the words of the text, in order,
    and puts one space between them: it is [' '.join(text.split())]. *)
Theorem clean_up_is_join_split (t : str) :
  re_sub_ws (strip t) = join [SP] (split t).
Proof.
  unfold re_sub_ws, split. rewrite sub_ws_strip.
  symmetry. exact (proj2 (join_split_from t)).
Qed.

Lemma sub_ws_spaced_id (s : str) :
  spaced s = true ->
  sub_ws false s = s /\ (starts_clean s = true -> sub_ws true s = s).
Proof.
  induction s as [| c r IH]; [split; reflexivity|]. cbn [spaced sub_ws starts_clean].
  intros H. apply andb_true_iff in H as [Hc Hr]. destruct (IH Hr) as [IH0 IH1].
  destruct (isspace c) eqn:Ec.
  - split; [|discriminate]. apply andb_true_iff in Hc as [Hsp Hnext].
    apply N.eqb_eq in Hsp. subst c. f_equal. apply IH1.
    destruct r as [| d r']; [discriminate | exact Hnext].
  - split; intros; now rewrite IH0.
Qed.

(** X2: cleaning up is idempotent: a text that is already normalized
    comes out of the clean-up unchanged, so cleaning twice is cleaning
    once. *)
Theorem clean_up_idempotent (t : str) :
  (normalized t = true -> re_sub_ws (strip t) = t) /\
  re_sub_ws (strip (re_sub_ws (strip t))) = re_sub_ws (strip t).
Proof.
  assert (Hid : forall s, normalized s = true -> re_sub_ws (strip s) = s).
  { intros s Hn. apply andb_true_iff in Hn as [Hs Hsp].
    rewrite (strip_id s Hs (spaced_ends s Hsp)).
    exact (proj1 (sub_ws_spaced_id s Hsp)). }
  split; [apply Hid|]. apply Hid, clean_up_normalized.
Qed.

(** ** parse_article_xml: the first author, the year, the placeholders *)

Lemma index_last_snoc {A} (l : list A) (x : A) : index_last (l ++ [x]) = Returned x.
Proof. unfold index_last. now rewrite rev_unit. Qed.

Lemma split_tokens_nonempty (s : str) (p : str) : In p (split s) -> p <> [].
Proof.
  intros Hin. pose proof (split_from_solid s [] eq_refl) as Hf.
  rewrite List.Forall_forall in Hf. now apply Hf.
Qed.

(** X3: [first_author_display] never fails on an index, whatever the name:
    without a token it is [NO_AUTHOR], with one token it is that token,
    and with more it is the last token, a comma, and the initial of the
    first token followed by a period. *)
Theorem first_author_of_format (author0 : str) :
  (exists s, first_author_of author0 = Returned s) /\
  (split author0 = [] -> first_author_of author0 = Returned (lit "NO_AUTHOR")) /\
  (forall p, split author0 = [p] -> first_author_of author0 = Returned p) /\
  (forall p0 mid pl, split author0 = p0 :: mid ++ [pl] ->
     exists c p0', p0 = c :: p0' /\
       first_author_of author0 = Returned (pl ++ lit ", " ++ [c] ++ lit ".")).
Proof.
  assert (H0 : split author0 = [] ->
               first_author_of author0 = Returned (lit "NO_AUTHOR")).
  { intros H. unfold first_author_of. now rewrite H. }
  assert (H1 : forall p, split author0 = [p] -> first_author_of author0 = Returned p).
  { intros p H. unfold first_author_of. now rewrite H. }
  assert (H2 : forall p0 mid pl, split author0 = p0 :: mid ++ [pl] ->
             exists c p0', p0 = c :: p0' /\
               first_author_of author0 = Returned (pl ++ lit ", " ++ [c] ++ lit ".")).
  { intros p0 mid pl H.
    assert (Hp0 : p0 <> []) by (apply (split_tokens_nonempty author0); rewrite H; now left).
    destruct p0 as [| c p0']; [congruence|]. exists c, p0'. split; [reflexivity|].
    unfold first_author_of. rewrite H.
    assert (Hlen : length ((c :: p0') :: mid ++ [pl]) = S (S (length mid)))
      by (cbn [length]; rewrite List.length_app; cbn [length]; lia).
    rewrite Hlen. cbn [Nat.ltb Nat.leb index nth_error obind truthy].
    change ((c :: p0') :: mid ++ [pl]) with (((c :: p0') :: mid) ++ [pl]).
    rewrite index_last_snoc. reflexivity. }
  split; [|auto].
  destruct (split author0) as [| p0 rest] eqn:E; [eauto|].
  destruct rest as [| q rest']; [eauto|].
  destruct (exists_last (l := q :: rest') ltac:(congruence)) as (mid & pl & Hl).
  destruct (H2 p0 mid pl) as (c & p0' & _ & Hr); [now rewrite Hl | eauto].
Qed.

Lemma parse_article_xml_Some (x : Element) (a : Article) :
  parse_article_xml x = Returned (Some a) -> parse_fields x = Returned (Some a).
Proof.
  unfold parse_article_xml. destruct (parse_fields x); [|discriminate].
  now intros [= ->].
Qed.

(** An accepted record went through every step of the [try] block. *)
Lemma parse_fields_steps (x : Element) (a : Article) :
  parse_article_xml x = Returned (Some a) ->
  exists pmid0 title0 names fa journal0 year0 yr,
    get_text (Some x) p_PMID = Returned pmid0 /\ truthy pmid0 = true /\
    get_text (Some x) p_ArticleTitle = Returned title0 /\
    authors_of (findall x p_Author) = Returned names /\
    match names with
    | [] => Returned (lit "NO_AUTHOR")
    | author0 :: _ => first_author_of author0
    end = Returned fa /\
    get_text (Some x) p_JournalTitle = Returned journal0 /\
    get_text (find x p_PubDate) p_Year = Returned year0 /\
    (if truthy year0 then Returned year0
     else let! year1 := get_text (Some x) p_ArticleDateYear in
          Returned (or_else year1 (lit "NO_YEAR"))) = Returned yr /\
    a = new_Article pmid0 (or_else title0 (lit "NO_TITLE")) fa
          (or_else (join (lit ", ") names) (lit "NO_AUTHORS")) yr
          (or_else journal0 (lit "N/A"))
          (or_else (strip (join (lit " ") (abstract_texts (findall x p_AbstractText))))
                   (lit "NO_ABSTRACT"))
          (match find x p_pmc with Some n => text n | None => Some [] end).
Proof.
  intros H. apply parse_article_xml_Some in H. unfold parse_fields in H.
  apply obind_Returned in H as (pmid0 & Hpmid & H).
  destruct (truthy pmid0) eqn:Et; cbn [negb] in H; [|discriminate].
  apply obind_Returned in H as (title0 & Htitle & H).
  apply obind_Returned in H as (names & Hnames & H).
  apply obind_Returned in H as (fa & Hfa & H).
  apply obind_Returned in H as (journal0 & Hjournal & H).
  apply obind_Returned in H as (year0 & Hyear0 & H).
  apply obind_Returned in H as (yr & Hyr & H).
  injection H as <-.
  exists pmid0, title0, names, fa, journal0, year0, yr. repeat split; assumption.
Qed.

(** X4: a record without a [PubDate] element is dropped, even when it has
    an identifier and an [ArticleDate] year: the year is read through the
    result of [find], which is [None], and the error that follows is turned
    into no-record.  The fallback to [ArticleDate] serves only records
    whose [PubDate] has no year. *)
Theorem no_pubdate_no_record (x : Element) :
  find x p_PubDate = None -> parse_article_xml x = Returned None.
Proof.
  intros Hp. destruct (parse_article_xml_total x) as [[a |] Hr]; [|exact Hr].
  destruct (parse_fields_steps x a Hr)
    as (? & ? & ? & ? & ? & ? & ? & _ & _ & _ & _ & _ & _ & Hy & _).
  rewrite Hp in Hy. discriminate.
Qed.

Lemma no_pubdate_no_record_witness :
  find record_without_pubdate p_PMID
    = Some (leaf "PMID" (lit "7")) /\
  parse_article_xml record_without_pubdate = Returned None.
Proof.
  split; [reflexivity|].
  apply (no_pubdate_no_record record_without_pubdate). reflexivity.
Defined.





(** ** search_endpoint: the identifiers and their chunks *)

Lemma slice_sublist {A} (l : list A) (a b : Z) : slice l a b `sublist_of` l.
Proof.
  unfold slice. etransitivity; [apply sublist_take | apply sublist_drop].
Qed.

(** What an answer puts in [found_pmids]. *)
Lemma found_pmids_of_answer (w : World) (request : SearchRequest) (data : json) :
  esearch_answer w request = Body data ->
  found_pmids w request
  = if well_shaped data then list_to_set (upstream_ids data) else ∅.
Proof.
  intros Ha. unfold found_pmids, search_outcome. rewrite Ha.
  pose proof (pmids_of_answer_outcome data) as H.
  destruct (well_shaped data); [now rewrite H|].
  now destruct H as [-> | ->].
Qed.

(** X6: the identifiers the endpoint processes are pairwise distinct and
    all come from the upstream answer, whatever the limit (negative ones
    included), however often upstream repeats an identifier and in whatever
    order the set is listed; after a failed search there is none. *)
Theorem processed_pmids_distinct (w : World) (request : SearchRequest) :
  NoDup (pmid_list_of w request) /\
  match esearch w (search_term_of (query request) (exclude_preprints request)
                                  (free_full_text_only request))
                (start_date request) (stop_date request) with
  | Body data => forall x, x ∈ pmid_list_of w request -> x ∈ upstream_ids data
  | RequestException _ => pmid_list_of w request = []
  end.
Proof.
  unfold pmid_list_of, slice_to. split.
  - eapply sublist_NoDup; [|apply slice_sublist].
    rewrite (listing_perm w _). apply NoDup_elements.
  - fold (esearch_answer w request).
    destruct (esearch_answer w request) as [msg | data] eqn:Ha.
    + unfold found_pmids, search_outcome. rewrite Ha, listing_empty. apply slice_nil.
    + intros x Hx. eapply elem_of_sublist in Hx; [|apply slice_sublist].
      rewrite (listing_perm w _), elem_of_elements in Hx.
      rewrite (found_pmids_of_answer w request data Ha) in Hx.
      destruct (well_shaped data).
      * now apply elem_of_list_to_set in Hx.
      * now apply not_elem_of_empty in Hx.
Qed.

(** X7: with a positive batch size the chunks of the loop partition the
    identifier list: put end to end, in loop order, they give the list back,
    so every identifier is asked for exactly once; no chunk is empty and
    none is longer than the batch size. *)
Theorem chunks_partition_the_list {A} (request : SearchRequest) (pmid_list : list A) :
  0 < chunk_size request ->
  exists idxs,
    range 0 (Z.of_nat (length pmid_list)) (chunk_size request) = Returned idxs /\
    concat (List.map (chunk_at request pmid_list) idxs) = pmid_list /\
    List.Forall (fun i => chunk_at request pmid_list i <> [] /\
                          Z.of_nat (length (chunk_at request pmid_list i))
                          <= chunk_size request) idxs.
Proof. apply loop_chunks. Qed.

Lemma chunks_partition_the_list_witness :
  exists idxs,
    range 0 5 (chunk_size (sample_request 9 2)) = Returned idxs /\
    List.map (chunk_at (sample_request 9 2)
                [lit "a"; lit "b"; lit "c"; lit "d"; lit "e"]) idxs
    = [[lit "a"; lit "b"]; [lit "c"; lit "d"]; [lit "e"]].
Proof.
  destruct (chunks_partition_the_list (sample_request 9 2)
              [lit "a"; lit "b"; lit "c"; lit "d"; lit "e"])
    as (idxs & Hr & _ & _); [reflexivity|].
  exists idxs. split; [exact Hr|].
  vm_compute in Hr. injection Hr as <-. reflexivity.
Defined.

(** X11: after a transport failure of the search, and after a well-shaped
    answer when it has no identifier or the limit is zero, the endpoint
    returns the empty list after the search call alone; the batch size is
    not looked at, so not even a zero batch size raises.  An answer that is
    not well-shaped makes the endpoint raise [AttributeError] or
    [TypeError] after the search call, whatever the limit. *)
Theorem nothing_to_process_returns_empty (w : World) (request : SearchRequest) :
  let searched :=
    [CallESearch (search_term_of (query request) (exclude_preprints request)
                                 (free_full_text_only request))] in
  match esearch w (search_term_of (query request) (exclude_preprints request)
                                  (free_full_text_only request))
                (start_date request) (stop_date request) with
  | RequestException _ => run (search_endpoint w request) = (Returned [], searched)
  | Body data =>
      if well_shaped data
      then limit request = 0 \/ upstream_ids data = [] ->
           run (search_endpoint w request) = (Returned [], searched)
      else exists e, run (search_endpoint w request) = (Raised e, searched) /\
                     (e = AttributeError \/ e = TypeError)
  end.
Proof.
  intros searched. fold (esearch_answer w request).
  assert (Hempty : forall ids, search_outcome w request = Returned ids ->
            limit request = 0 \/ ids = ∅ ->
            run (search_endpoint w request) = (Returned [], searched)).
  { intros ids Hs H. unfold run.
    rewrite (search_endpoint_empty w request init (ex_intro _ ids Hs)); [reflexivity|].
    unfold pmid_list_of, found_pmids. rewrite Hs. destruct H as [-> | ->].
    - rewrite slice_to_nonneg by lia. reflexivity.
    - rewrite listing_empty. apply slice_nil. }
  destruct (esearch_answer w request) as [msg | data] eqn:Ha.
  - apply (Hempty ∅); [|now right]. unfold search_outcome. now rewrite Ha.
  - pose proof (pmids_of_answer_outcome data) as H.
    destruct (well_shaped data).
    + intros Hc. apply (Hempty (list_to_set (upstream_ids data))).
      * unfold search_outcome. now rewrite Ha.
      * destruct Hc as [Hc | ->]; [now left | now right].
    + assert (He : exists e, search_outcome w request = Raised e /\
                             (e = AttributeError \/ e = TypeError)).
      { unfold search_outcome. rewrite Ha. destruct H as [-> | ->]; eauto. }
      destruct He as (e & He & Hk). exists e. split; [|exact Hk].
      unfold run, search_endpoint, bind. rewrite search_pmids_run, He. reflexivity.
Qed.

Lemma nothing_to_process_returns_empty_witness :
  run (search_endpoint silent_failure (sample_request 10 0))
  = (Returned [], [CallESearch (lit "(roots) NOT preprint[pt]")]) /\
  run (search_endpoint sample_world (sample_request 0 0))
  = (Returned [], [CallESearch (lit "(roots) NOT preprint[pt]")]) /\
  exists e, run (search_endpoint (answering JNull) (sample_request 0 0))
            = (Raised e, [CallESearch (lit "(roots) NOT preprint[pt]")]).
Proof.
  split; [|split].
  - exact (nothing_to_process_returns_empty silent_failure (sample_request 10 0)).
  - apply (nothing_to_process_returns_empty sample_world (sample_request 0 0)).
    left. reflexivity.
  - destruct (nothing_to_process_returns_empty (answering JNull) (sample_request 0 0))
      as (e & He & _).
    exists e. exact He.
Defined.

(** ** scrape_full_text: calls and results *)

Lemma splitlines_from_head (s cur line : str) (rest : list str) :
  splitlines_from false cur s = line :: rest ->
  exists pre post,
    line = cur ++ pre /\ s = pre ++ post /\
    forallb (fun c => negb (is_linebreak c)) pre = true /\
    (post = [] \/ exists c post', post = c :: post' /\ is_linebreak c = true).
Proof.
  revert cur. induction s as [| c r IH]; intros cur; cbn [splitlines_from andb].
  - destruct cur as [| c0 cur']; [discriminate|]. intros [= <- <-].
    exists [], []. rewrite app_nil_r. auto.
  - destruct (is_linebreak c) eqn:E.
    + intros [= <- <-]. exists [], (c :: r). rewrite app_nil_r.
      repeat split; eauto.
    + intros H. destruct (IH _ H) as (pre & post & -> & -> & Hpre & Hpost).
      exists (c :: pre), post. rewrite <- app_assoc. cbn [forallb app].
      rewrite E, Hpre. auto.
Qed.

(** X10: whatever the remote does, [scrape_full_text] makes exactly one
    call, to the page of its identifier; a string it returns is never
    empty; and after a failure with a message that is not empty the result
    is [SCRAPING_FAILED: ] followed by the first line of the message, the
    part before its first line break. *)
Theorem scrape_full_text_calls_and_result (w : World) (pmcid : str) (st : state) :
  let url := PMC_ARTICLE_URL ++ pmcid ++ lit "/" in
  let r := scrape_full_text w pmcid st in
  calls (snd r) = calls st ++ [CallPMC url] /\
  articles_data (snd r) = articles_data st /\
  (forall t, fst r = Returned t -> truthy t = true) /\
  (forall msg, pmc_get w url = RequestException msg -> msg <> [] ->
     exists line rest,
       msg = line ++ rest /\
       forallb (fun c => negb (is_linebreak c)) line = true /\
       (rest = [] \/ exists c rest', rest = c :: rest' /\ is_linebreak c = true) /\
       fst r = Returned (lit "SCRAPING_FAILED: " ++ line)).
Proof.
  intros url r.
  destruct (scrape_full_text_state w pmcid st) as (Hc & Ha & Ht).
  split; [exact Hc|]. split; [exact Ha|]. split; [exact Ht|].
  intros msg Hm Hne.
  destruct (splitlines_nonempty msg Hne) as (line & more & Hl).
  pose proof Hl as Hl'. unfold splitlines in Hl'.
  apply splitlines_from_head in Hl' as (pre & post & -> & -> & Hpre & Hpost).
  exists pre, post. cbn [app]. repeat split; try assumption.
  unfold r, scrape_full_text, bind, outbound, ret, lift. fold url.
  rewrite Hm, Hl. reflexivity.
Qed.

Lemma join_space_empty (ps : list str) :
  join (lit " ") ps = [] -> ps = [] \/ ps = [[]].
Proof.
  destruct ps as [| p rest]; [auto|]. destruct rest as [| q rest'].
  - cbn [join]. intros ->. auto.
  - change (join (lit " ") (p :: q :: rest'))
      with (p ++ SP :: join (lit " ") (q :: rest')).
    intros H. now destruct p.
Qed.

(** X15: with the container found, the scraper answers [FULL_TEXT_EMPTY]
    exactly when the container has no paragraph or a single paragraph
    without text; two or more paragraphs always give their texts joined by
    spaces, even when every text is empty. *)
Theorem scrape_full_text_empty_when (w : World) (pmcid : str) (soup body : BS.node) :
  pmc_get w (PMC_ARTICLE_URL ++ pmcid ++ lit "/") = Body soup ->
  BS.find_attrs soup (lit "aria-label") (lit "Article content") = Some body ->
  let ps := List.map BS.get_text_strip (BS.find_all body (lit "p")) in
  (ps = [] \/ ps = [[]] ->
   fst (run (scrape_full_text w pmcid)) = Returned (lit "FULL_TEXT_EMPTY")) /\
  (ps <> [] -> ps <> [[]] ->
   fst (run (scrape_full_text w pmcid)) = Returned (join (lit " ") ps) /\
   join (lit " ") ps <> []).
Proof.
  intros Hp Hb ps.
  assert (Hr : fst (run (scrape_full_text w pmcid))
               = Returned (if truthy (join (lit " ") ps) then join (lit " ") ps
                           else lit "FULL_TEXT_EMPTY")).
  { unfold run, scrape_full_text, bind, outbound, ret. rewrite Hp, Hb. reflexivity. }
  rewrite Hr. split.
  - intros [-> | ->]; reflexivity.
  - intros H0 H1. destruct (join (lit " ") ps) eqn:E.
    + apply join_space_empty in E. tauto.
    + split; [reflexivity | discriminate].
Qed.

Lemma scrape_full_text_empty_when_witness :
  fst (run (scrape_full_text blank_world (lit "PMC1"))) = Returned [SP].
Proof.
  refine (proj1 (proj2 (scrape_full_text_empty_when blank_world (lit "PMC1")
                          blank_page _ eq_refl eq_refl) _ _)).
  - discriminate.
  - discriminate.
Defined.

Lemma scrape_full_text_calls_and_result_witness :
  exists line rest,
    lit "HTTP 404" ++ nl ++ lit "Not Found" = line ++ rest /\
    forallb (fun c => negb (is_linebreak c)) line = true /\
    fst (scrape_full_text blank_world (lit "PMC7") init)
    = Returned (lit "SCRAPING_FAILED: " ++ line).
Proof.
  destruct (scrape_full_text_calls_and_result blank_world (lit "PMC7") init)
    as (_ & _ & _ & Hf).
  destruct (Hf (lit "HTTP 404" ++ nl ++ lit "Not Found") eq_refl ltac:(discriminate))
    as (line & rest & Hm & Hl & _ & Hr).
  exists line, rest. auto.
Defined.

Example scrape_first_line :
  run (scrape_full_text blank_world (lit "PMC7"))
  = (Returned (lit "SCRAPING_FAILED: HTTP 404"),
     [CallPMC (lit "https://www.ncbi.nlm.nih.gov/pmc/articles/PMC7/")]).
Proof. reflexivity. Qed.

(** ** search_endpoint: calls made and articles returned *)

Lemma accepted_full_text (x : Element) (a : Article) :
  parse_article_xml x = Returned (Some a) ->
  full_text a = Some (lit "NOT_ATTEMPTED").
Proof.
  intros H. destruct (parse_fields_steps x a H)
    as (? & ? & ? & ? & ? & ? & ? & _ & _ & _ & _ & _ & _ & _ & _ & ->).
  reflexivity.
Qed.

(** Without full-text fetching the record loop calls nothing and appends
    the parsed articles as they are. *)
Lemma records_loop_no_scrape (w : World) (request : SearchRequest)
    (records : list Element) (st : state) :
  fetch_full_text request = false ->
  exists new,
    records_loop w request records st
    = (Returned tt, {| calls := calls st; articles_data := articles_data st ++ new |}) /\
    List.Forall (fun a => full_text a = Some (lit "NOT_ATTEMPTED")) new.
Proof.
  intros Hf. revert st. induction records as [| x rest IH]; intros st.
  - exists []. cbn [records_loop]. unfold ret. rewrite app_nil_r. now destruct st.
  - cbn [records_loop]. destruct (parse_article_xml_total x) as [r Hr].
    unfold bind at 1, lift. rewrite Hr. destruct r as [a |].
    + assert (Hatt : (match pmcid a with
                      | Some id =>
                          if fetch_full_text request && truthy id
                          then do! t := scrape_full_text w id in ret (set_full_text a t)
                          else ret a
                      | None => ret a
                      end) = ret a)
        by (rewrite Hf; now destruct (pmcid a)).
      rewrite Hatt. unfold bind at 1. unfold bind at 1, ret at 1, append_article at 1.
      destruct (IH {| calls := calls st; articles_data := articles_data st ++ [a] |})
        as (new & Hl & Hnew).
      exists (a :: new). rewrite Hl. cbn [calls articles_data].
      rewrite <- app_assoc. split; [reflexivity|].
      constructor; [exact (accepted_full_text x a Hr) | exact Hnew].
    + unfold bind at 1, ret at 1. apply IH.
Qed.

Lemma forallb_sublist {A} (p : A -> bool) (l k : list A) :
  l `sublist_of` k -> forallb p k = true -> forallb p l = true.
Proof.
  induction 1 as [| x l k _ IH | x l k _ IH]; cbn [forallb]; [reflexivity | |].
  - intros [Hx Hk]%andb_prop. now rewrite Hx, IH.
  - intros [_ Hk]%andb_prop. now apply IH.
Qed.

(** [','.join] of identifiers that are all strings. *)
Lemma join_ids_strings (pmids : list atom) :
  forallb is_str pmids = true ->
  join_ids pmids = Returned (join (lit ",") (texts_of pmids)).
Proof.
  intros H. unfold join_ids.
  assert (Hs : strs_of pmids = Returned (texts_of pmids)).
  { induction pmids as [| a rest IH]; [reflexivity|].
    cbn [forallb] in H. apply andb_prop in H as [Ha Hr].
    destruct a; try discriminate. cbn [strs_of]. now rewrite (IH Hr). }
  now rewrite Hs.
Qed.

(** Whatever its outcome, the body of the chunk loop adds no page request
    when full text is not asked for. *)
Lemma chunk_body_never_scrapes (w : World) (request : SearchRequest)
    (pmid_list : list atom) (i : Z) (st : state) :
  fetch_full_text request = false ->
  List.Forall (fun c => is_scrape_call c = false) (calls st) ->
  List.Forall (fun c => is_scrape_call c = false)
    (calls (snd (chunk_body w request pmid_list i st))).
Proof.
  intros Hf Hst. unfold chunk_body.
  set (chunk := chunk_at request pmid_list i).
  unfold bind at 1, get_details_for_pmids.
  destruct chunk as [| p r] eqn:Ec; [exact Hst|]. rewrite <- Ec. clear Ec p r.
  unfold bind at 1, lift at 1.
  destruct (join_ids chunk) as [ids | e]; [|exact Hst].
  unfold bind at 1, outbound at 1.
  set (st1 := {| calls := calls st ++ [CallEFetch ids];
                 articles_data := articles_data st |}).
  assert (Hst1 : List.Forall (fun c => is_scrape_call c = false) (calls st1)).
  { apply List.Forall_app. split; [exact Hst | now repeat constructor]. }
  destruct (efetch w ids) as [msg | xml_data]; [exact Hst1|].
  unfold ret at 1. destruct (truthy xml_data); [|exact Hst1].
  unfold except_ParseError.
  destruct (fromstring w (safe_xml_of xml_data)) as [root |]; [|exact Hst1].
  destruct (records_loop_no_scrape w request (findall root p_PubmedArticle) st1 Hf)
    as (new & Hl & _).
  rewrite Hl. exact Hst1.
Qed.

Lemma chunks_loop_never_scrapes (w : World) (request : SearchRequest)
    (pmid_list : list atom) (idxs : list Z) (st : state) :
  fetch_full_text request = false ->
  List.Forall (fun c => is_scrape_call c = false) (calls st) ->
  List.Forall (fun c => is_scrape_call c = false)
    (calls (snd (chunks_loop w request pmid_list idxs st))).
Proof.
  intros Hf. revert st. induction idxs as [| i rest IH]; intros st Hst; [exact Hst|].
  cbn [chunks_loop]. unfold bind.
  pose proof (chunk_body_never_scrapes w request pmid_list i st Hf Hst) as Hb.
  destruct (chunk_body w request pmid_list i st) as [[[] | e] st1]; [|exact Hb].
  now apply IH.
Qed.

Lemma chunk_body_no_scrape (w : World) (request : SearchRequest)
    (pmid_list : list atom) (i : Z) (st : state) :
  fetch_full_text request = false -> chunk_at request pmid_list i <> [] ->
  forallb is_str (chunk_at request pmid_list i) = true ->
  exists new,
    chunk_body w request pmid_list i st
    = (Returned tt, {| calls := calls st ++ [fetch_call request pmid_list i];
                       articles_data := articles_data st ++ new |}) /\
    List.Forall (fun a => full_text a = Some (lit "NOT_ATTEMPTED")) new.
Proof.
  intros Hf Hne Hstr. unfold chunk_body, fetch_call.
  set (chunk := chunk_at request pmid_list i) in *.
  unfold bind at 1, get_details_for_pmids.
  destruct chunk as [| p r] eqn:Ec; [congruence|]. rewrite <- Ec in *. clear Ec Hne p r.
  unfold bind at 1, lift at 1. rewrite (join_ids_strings chunk Hstr).
  set (ids := join (lit ",") (texts_of chunk)).
  unfold bind at 1, outbound at 1.
  set (st1 := {| calls := calls st ++ [CallEFetch ids];
                 articles_data := articles_data st |}).
  assert (Hskip : exists new : list Article,
             (Returned tt, st1)
             = (Returned tt, {| calls := calls st ++ [CallEFetch ids];
                                articles_data := articles_data st ++ new |}) /\
             List.Forall (fun a => full_text a = Some (lit "NOT_ATTEMPTED")) new).
  { exists []. rewrite app_nil_r. split; [reflexivity | constructor]. }
  destruct (efetch w ids) as [msg | xml_data]; [exact Hskip|].
  unfold ret at 1. destruct (truthy xml_data); [|exact Hskip].
  unfold except_ParseError.
  destruct (fromstring w (safe_xml_of xml_data)) as [root |]; [|exact Hskip].
  destruct (records_loop_no_scrape w request (findall root p_PubmedArticle) st1 Hf)
    as (new & Hl & Hnew).
  exists new. rewrite Hl. split; [reflexivity | exact Hnew].
Qed.

Lemma chunks_loop_no_scrape (w : World) (request : SearchRequest)
    (pmid_list : list atom) (idxs : list Z) (st : state) :
  fetch_full_text request = false ->
  forallb is_str pmid_list = true ->
  List.Forall (fun i => chunk_at request pmid_list i <> []) idxs ->
  exists new,
    chunks_loop w request pmid_list idxs st
    = (Returned tt,
       {| calls := calls st ++ List.map (fetch_call request pmid_list) idxs;
          articles_data := articles_data st ++ new |}) /\
    List.Forall (fun a => full_text a = Some (lit "NOT_ATTEMPTED")) new.
Proof.
  intros Hf Hstr Hne. revert st.
  induction Hne as [| i rest Hi Hrest IH]; intros st; cbn [chunks_loop List.map].
  - exists []. unfold ret. rewrite !app_nil_r. split; [now destruct st | constructor].
  - assert (Hsi : forallb is_str (chunk_at request pmid_list i) = true)
      by (eapply forallb_sublist; [apply slice_sublist | exact Hstr]).
    destruct (chunk_body_no_scrape w request pmid_list i st Hf Hi Hsi)
      as (new1 & Hb & H1).
    unfold bind. rewrite Hb.
    destruct (IH {| calls := calls st ++ [fetch_call request pmid_list i];
                    articles_data := articles_data st ++ new1 |})
      as (new2 & Hl & H2).
    exists (new1 ++ new2). rewrite Hl. cbn [calls articles_data].
    rewrite <- !app_assoc. split; [reflexivity|]. now apply List.Forall_app.
Qed.

(** X8: a search that does not ask for full text never calls the scraper,
    whatever its outcome.  When moreover the batch size is positive, the
    search for identifiers returns and the identifiers to process are all
    strings, the endpoint returns, its outbound calls are the search
    followed by one detail call per chunk, in chunk order, and every
    article it returns has [full_text] [NOT_ATTEMPTED], with or without a
    full-text identifier. *)
Theorem search_without_full_text (w : World) (request : SearchRequest) :
  fetch_full_text request = false ->
  List.Forall (fun c => is_scrape_call c = false)
    (snd (run (search_endpoint w request))) /\
  (0 < chunk_size request ->
   (exists ids, search_outcome w request = Returned ids) ->
   forallb is_str (pmid_list_of w request) = true ->
   exists idxs articles,
     range 0 (Z.of_nat (length (pmid_list_of w request))) (chunk_size request)
     = Returned idxs /\
     run (search_endpoint w request)
     = (Returned articles,
        CallESearch (search_term_of (query request) (exclude_preprints request)
                                    (free_full_text_only request))
        :: List.map (fetch_call request (pmid_list_of w request)) idxs) /\
     List.Forall (fun a => full_text a = Some (lit "NOT_ATTEMPTED")) articles).
Proof.
  intros Hf. split.
  - unfold run.
    destruct (pmid_list_of w request) as [| p r] eqn:E.
    + destruct (search_outcome w request) as [ids | e] eqn:Hs.
      * rewrite (search_endpoint_empty w request init (ex_intro _ ids Hs) E).
        now repeat constructor.
      * unfold search_endpoint, bind. rewrite search_pmids_run, Hs.
        now repeat constructor.
    + assert (Hne : pmid_list_of w request <> []) by congruence.
      rewrite (search_endpoint_nonempty w request init Hne).
      unfold bind at 1, lift.
      match goal with |- context [bind _ _ ?s] => set (st0 := s) end.
      assert (H0 : List.Forall (fun c => is_scrape_call c = false) (calls st0))
        by now repeat constructor.
      destruct (range 0 _ (chunk_size request)) as [idxs | e]; [|exact H0].
      pose proof (chunks_loop_never_scrapes w request (pmid_list_of w request) idxs st0
                    Hf H0) as Hl.
      unfold bind.
      destruct (chunks_loop w request (pmid_list_of w request) idxs st0)
        as [[[] | e] st']; exact Hl.
  - intros Hcs Hs Hstr.
    destruct (loop_chunks request (pmid_list_of w request) Hcs) as (idxs & Hr & _ & Hch).
    exists idxs.
    destruct (pmid_list_of w request) as [| p r] eqn:E.
    + exists []. split; [exact Hr|]. split; [|constructor].
      change (range 0 0 (chunk_size request) = Returned idxs) in Hr.
      rewrite (range_positive_step _ _ Hcs) in Hr. injection Hr as <-.
      unfold run. now rewrite (search_endpoint_empty w request init Hs E).
    + assert (Hne : pmid_list_of w request <> []) by congruence.
      assert (Hch' : List.Forall (fun i => chunk_at request (p :: r) i <> []) idxs)
        by (eapply List.Forall_impl; [|exact Hch]; now intros i [H _]).
      unfold run. rewrite (search_endpoint_nonempty w request init Hne).
      rewrite E, Hr. unfold bind at 1, lift.
      match goal with |- context [bind _ _ ?s] => set (st0 := s) end.
      destruct (chunks_loop_no_scrape w request (p :: r) idxs st0 Hf Hstr Hch')
        as (new & Hl & Hnew).
      exists new. split; [reflexivity|]. split; [|exact Hnew].
      unfold bind. rewrite Hl. reflexivity.
Qed.

Lemma search_without_full_text_witness :
  let request :=
    {| query := lit "roots"; start_date := lit "1900/01/01";
       stop_date := lit "3000/01/01"; limit := 2; chunk_size := 1;
       exclude_preprints := false; free_full_text_only := true;
       fetch_full_text := false |} in
  exists articles,
    run (search_endpoint sample_world request)
    = (Returned articles,
       [CallESearch (lit "(roots) AND free full text[filter]");
        CallEFetch (lit "3"); CallEFetch (lit "2")]) /\
    List.Forall (fun a => full_text a = Some (lit "NOT_ATTEMPTED")) articles.
Proof.
  intros request.
  destruct (search_without_full_text sample_world request eq_refl) as [_ H].
  destruct (H eq_refl (ex_intro _ _ eq_refl) eq_refl)
    as (idxs & articles & Hr & Hv & Hall).
  exists articles. split; [|exact Hall].
  rewrite Hv. vm_compute in Hr. injection Hr as <-. reflexivity.
Defined.

Lemma accepted_well_formed (x : Element) (a : Article) :
  parse_article_xml x = Returned (Some a) -> well_formed a.
Proof.
  intros H. destruct (parse_fields_steps x a H)
    as (pmid0 & title0 & names & fa & journal0 & year0 & yr
        & Hpmid & Hp & Htitle & Hnames & Hfa & _ & Hy0 & Hyr & ->).
  apply get_text_normalized in Hpmid, Htitle, Hy0. apply authors_of_tight in Hnames.
  unfold well_formed.
  cbn [pmid title first_author authors year abstract full_text new_Article].
  split; [exact Hp|]. split; [exact Hpmid|].
  split; [now apply or_else_normalized|]. split.
  { unfold or_else. destruct (truthy (join (lit ", ") names)) eqn:Et; [|reflexivity].
    apply tight_normalized, join_comma_tight; [exact Hnames|]. now intros ->. }
  split.
  { destruct names as [| author0 rest]; [now injection Hfa as <-|].
    now apply first_author_of_normalized in Hfa. }
  split.
  { destruct (truthy year0); [now injection Hyr as <-|].
    apply obind_Returned in Hyr as (year1 & Hy1 & Hyr). injection Hyr as <-.
    apply get_text_normalized in Hy1. now apply or_else_normalized. }
  split; [|eexists; split; reflexivity].
  unfold or_else. destruct (truthy (strip _)); [apply strip_trimmed | reflexivity].
Qed.

Lemma well_formed_set_full_text (a : Article) (t : str) :
  well_formed a -> truthy t = true -> well_formed (set_full_text a t).
Proof.
  intros (H1 & H2 & H3 & H4 & H5 & H6 & H7 & _) Ht.
  unfold well_formed. cbn [pmid title first_author authors year abstract full_text
                             set_full_text].
  repeat (split; [assumption|]). eauto.
Qed.

(** Whatever its outcome, the record loop leaves only well-formed
    articles in [articles_data]. *)
Lemma records_loop_well_formed (w : World) (request : SearchRequest)
    (records : list Element) (st : state) :
  List.Forall well_formed (articles_data st) ->
  List.Forall well_formed (articles_data (snd (records_loop w request records st))).
Proof.
  revert st. induction records as [| x rest IH]; intros st Hst; [exact Hst|].
  cbn [records_loop]. destruct (parse_article_xml_total x) as [r Hr].
  unfold bind at 1, lift. rewrite Hr. destruct r as [a |].
  - assert (Hatt : forall (m : M Article),
               List.Forall well_formed (articles_data (snd (m st))) ->
               (forall a', fst (m st) = Returned a' -> well_formed a') ->
               List.Forall well_formed (articles_data (snd
                 ((do! _ := (do! a' := m in append_article a') in
                   records_loop w request rest) st)))).
    { intros m Hs Ha. unfold bind. destruct (m st) as [[a' | e] st1]; [|exact Hs].
      unfold append_article. apply IH. cbn [articles_data snd] in *.
      apply List.Forall_app. split; [exact Hs|]. constructor; [|constructor].
      now apply Ha. }
    pose proof (accepted_well_formed x a Hr) as Hwf.
    assert (Hret : List.Forall well_formed (articles_data (snd (ret a st))) /\
                   forall a', fst (ret a st) = Returned a' -> well_formed a').
    { split; [exact Hst|]. now intros a' [= <-]. }
    destruct (pmcid a) as [id |]; [|now apply Hatt].
    destruct (fetch_full_text request && truthy id); [|now apply Hatt].
    destruct (scrape_full_text_state w id st) as (_ & Hd & Ht).
    apply Hatt; unfold bind, ret;
      destruct (scrape_full_text w id st) as [[t | e] st1]; cbn [fst snd] in *.
    + now rewrite Hd.
    + now rewrite Hd.
    + intros a' [= <-]. apply well_formed_set_full_text; auto.
    + discriminate.
  - unfold bind at 1, ret at 1. now apply IH.
Qed.

Lemma chunk_body_well_formed (w : World) (request : SearchRequest)
    (pmid_list : list atom) (i : Z) (st : state) :
  List.Forall well_formed (articles_data st) ->
  List.Forall well_formed (articles_data (snd (chunk_body w request pmid_list i st))).
Proof.
  intros Hst. unfold chunk_body. unfold bind at 1, get_details_for_pmids.
  destruct (chunk_at request pmid_list i) as [| p r]; [exact Hst|].
  unfold bind at 1, lift at 1.
  destruct (join_ids (p :: r)) as [ids | e]; [|exact Hst].
  unfold bind at 1, outbound at 1.
  set (st1 := {| calls := _; articles_data := articles_data st |}).
  assert (Hst1 : List.Forall well_formed (articles_data st1)) by exact Hst.
  destruct (efetch w _) as [msg | xml_data]; [exact Hst1|].
  unfold ret at 1. destruct (truthy xml_data); [|exact Hst1].
  unfold except_ParseError.
  destruct (fromstring w (safe_xml_of xml_data)) as [root |]; [|exact Hst1].
  pose proof (records_loop_well_formed w request (findall root p_PubmedArticle) st1 Hst1)
    as Hl.
  destruct (records_loop w request (findall root p_PubmedArticle) st1)
    as [[[] | e] st2]; [exact Hl|]. now destruct e.
Qed.

Lemma chunks_loop_well_formed (w : World) (request : SearchRequest)
    (pmid_list : list atom) (idxs : list Z) (st : state) :
  List.Forall well_formed (articles_data st) ->
  List.Forall well_formed (articles_data (snd (chunks_loop w request pmid_list idxs st))).
Proof.
  revert st. induction idxs as [| i rest IH]; intros st Hst; [exact Hst|].
  cbn [chunks_loop]. unfold bind.
  pose proof (chunk_body_well_formed w request pmid_list i st Hst) as Hb.
  destruct (chunk_body w request pmid_list i st) as [[[] | e] st1]; [|exact Hb].
  now apply IH.
Qed.

(** X9: whatever the remote services answer, every article of a list the
    search endpoint returns has an identifier that is not empty,
    normalized identifier, title, authors, first author and year, an
    abstract without whitespace at its ends, and a full text that is not
    empty. *)
Theorem search_results_well_formed (w : World) (request : SearchRequest)
    (articles : list Article) (made : list call) :
  run (search_endpoint w request) = (Returned articles, made) ->
  List.Forall well_formed articles.
Proof.
  unfold run.
  destruct (pmid_list_of w request) as [| p r] eqn:E.
  - unfold search_endpoint, bind at 1. rewrite search_pmids_run.
    destruct (search_outcome w request) as [ids | e] eqn:Hs; [|discriminate].
    unfold pmid_list_of, found_pmids in E. rewrite Hs in E. rewrite E.
    intros [= <- _]. constructor.
  - assert (Hne : pmid_list_of w request <> []) by congruence.
    rewrite (search_endpoint_nonempty w request init Hne).
    unfold bind at 1, lift.
    destruct (range 0 _ (chunk_size request)) as [idxs | e]; [|discriminate].
    match goal with |- context [bind _ _ ?s] => set (st0 := s) end.
    pose proof (chunks_loop_well_formed w request (pmid_list_of w request) idxs st0
                  ltac:(constructor)) as Hl.
    unfold bind. fold st0.
    destruct (chunks_loop w request (pmid_list_of w request) idxs st0)
      as [[[] | e] st']; [|discriminate].
    unfold get_articles_data. now intros [= <- _].
Qed.

Lemma search_results_well_formed_witness :
  exists articles made,
    run (search_endpoint sample_world (sample_request 2 1)) = (Returned articles, made) /\
    length articles = 1%nat /\ List.Forall well_formed articles.
Proof.
  do 2 eexists. split; [reflexivity|]. split; [reflexivity|].
  eapply (search_results_well_formed sample_world (sample_request 2 1)).
  reflexivity.
Defined.

(** ** analyze_endpoint: what the prompt keeps *)

Lemma prompt_header_fits : (length prompt_header <= Z.to_nat 30000)%nat.
Proof.
  apply Nat2Z.inj_le. rewrite Z2Nat.id by lia. vm_compute. discriminate.
Qed.

(** X12: the final truncation cuts the prompt at its end only: the
    instruction header is always sent whole, what is sent is a prefix of the
    header followed by the article blocks, and when these fit in 30000
    characters nothing is cut. *)
Theorem prompt_truncation_keeps_header (articles : list Article) :
  let whole := prompt_header ++ join nl (article_texts_from 0 articles) in
  (exists kept, full_prompt_of articles = prompt_header ++ kept) /\
  (exists dropped, whole = full_prompt_of articles ++ dropped) /\
  (Z.of_nat (length whole) <= 30000 -> full_prompt_of articles = whole).
Proof.
  intros whole. unfold full_prompt_of. fold whole.
  rewrite (slice_to_nonneg whole 30000) by lia. split; [|split].
  - unfold whole. rewrite take_app_ge by exact prompt_header_fits. eauto.
  - exists (drop (Z.to_nat 30000) whole). now rewrite take_drop.
  - intros Hfit. apply take_ge. lia.
Qed.

(** ** analyze_endpoint: the test on full_text *)

Lemma is_prefix_iff (p s : str) :
  is_prefix p s = true <-> exists post, s = p ++ post.
Proof.
  revert s. induction p as [| a p IH]; intros s; cbn [is_prefix].
  - split; [eauto | reflexivity].
  - destruct s as [| b s]; [split; [discriminate | now intros (post & H)]|].
    rewrite andb_true_iff, N.eqb_eq, IH. split.
    + intros (-> & post & ->). now exists post.
    + intros (post & [= -> ->]). eauto.
Qed.

Lemma contains_iff (needle s : str) :
  contains needle s = true <-> exists pre post, s = pre ++ needle ++ post.
Proof.
  induction s as [| c r IH]; cbn [contains]; rewrite orb_true_iff, is_prefix_iff.
  - split.
    + intros [(post & H) | H]; [|discriminate]. now exists [], post.
    + intros (pre & post & H). left. destruct pre; [now exists post|discriminate].
  - rewrite IH. split.
    + intros [(post & H) | (pre & post & ->)]; [now exists [], post|].
      now exists (c :: pre), post.
    + intros (pre & post & H). destruct pre as [| c' pre].
      * left. now exists post.
      * right. injection H as -> ->. eauto.
Qed.

(** X13: the test on [full_text] is a substring test.  The abstract is
    used when [full_text] is missing, empty, or has [NOT_ATTEMPTED]
    anywhere inside, a scraped text that merely mentions it included; every
    other [full_text] is used as it is. *)
Theorem text_content_substring_test (a : Article) :
  (match full_text a with
   | None => True
   | Some ft => ft = [] \/ exists pre post, ft = pre ++ lit "NOT_ATTEMPTED" ++ post
   end -> text_content_of a = abstract a) /\
  (forall ft, full_text a = Some ft -> ft <> [] ->
     (forall pre post, ft <> pre ++ lit "NOT_ATTEMPTED" ++ post) ->
     text_content_of a = ft).
Proof.
  unfold text_content_of. split.
  - destruct (full_text a) as [ft |]; [|reflexivity].
    intros [-> | H]; [reflexivity|].
    apply contains_iff in H. rewrite H. now rewrite andb_false_r.
  - intros ft -> Hne Hno.
    assert (Hc : contains (lit "NOT_ATTEMPTED") ft = false).
    { destruct (contains (lit "NOT_ATTEMPTED") ft) eqn:E; [|reflexivity].
      apply contains_iff in E as (pre & post & E). now apply Hno in E. }
    rewrite Hc. now destruct ft.
Qed.

Example scraped_text_mentioning_sentinel :
  text_content_of
    (sample_article (lit "An abstract.")
       (Some (lit "Rows marked NOT_ATTEMPTED were skipped.")))
  = lit "An abstract.".
Proof. reflexivity. Qed.

(** ** generate_query_endpoint *)

Lemma subscript_raises (x : json) (key : str) (e : exn) :
  subscript x key = Raised e -> e = KeyError \/ e = TypeError.
Proof.
  destruct x as [| b | n | s | items | members]; cbn [subscript];
    try (intros [= <-]; now right).
  destruct (lookup_key members key); [discriminate|]. intros [= <-]. now left.
Qed.

Lemma subscript0_raises (x : json) (e : exn) :
  subscript0 x = Raised e -> e = KeyError \/ e = IndexError \/ e = TypeError.
Proof.
  destruct x as [| b | n | [| c s] | [| v items] | members]; cbn [subscript0];
    try discriminate; intros [= <-]; auto.
Qed.

(** Reading the text of an answer raises nothing but the errors of a
    subscript. *)
Lemma completion_text_raises (answer : json) (e : exn) :
  completion_text answer = Raised e ->
  e = KeyError \/ e = IndexError \/ e = TypeError.
Proof.
  unfold completion_text.
  repeat match goal with
  | |- context [subscript ?x ?k] =>
      let E := fresh "E" in
      destruct (subscript x k) eqn:E;
      [cbn [obind] | apply subscript_raises in E; intros [= <-]; tauto]
  | |- context [subscript0 ?x] =>
      let E := fresh "E" in
      destruct (subscript0 x) eqn:E;
      [cbn [obind] | apply subscript0_raises in E; intros [= <-]; tauto]
  end.
  discriminate.
Qed.

(** X14: the query endpoint makes exactly one upstream call, whose prompt
    holds the idea unabridged between the fixed instructions and the fixed
    example.  It returns a query only when the answer holds a string at
    [candidates][0].content.parts[0].text, and the query is that string
    without the whitespace at its ends.  Status 503 stands for a transport
    failure and status 500 for a [KeyError] or [IndexError] on the way to
    the text, which therefore never reach the caller; a [TypeError] on the
    way (an answer that is [null], say) and the [AttributeError] of a text
    that is not a string do reach the caller; nothing else is raised. *)
Theorem generate_query_outcomes (w : World) (idea : str) :
  let prompt := query_prompt_prefix ++ idea ++ query_prompt_suffix in
  exists r,
    run (generate_query_endpoint w idea) = (r, [CallGenerate prompt]) /\
    match r with
    | Returned q =>
        trimmed q = true /\
        exists answer text,
          generate w prompt = Body answer /\
          completion_text answer = Returned (JString text) /\ q = strip text
    | Raised (HTTPException status) =>
        match generate w prompt with
        | RequestException _ => status = 503
        | Body answer =>
            status = 500 /\
            (completion_text answer = Raised KeyError \/
             completion_text answer = Raised IndexError)
        end
    | Raised TypeError =>
        exists answer,
          generate w prompt = Body answer /\ completion_text answer = Raised TypeError
    | Raised AttributeError =>
        exists answer text,
          generate w prompt = Body answer /\
          completion_text answer = Returned text /\ forall s, text <> JString s
    | Raised _ => False
    end.
Proof.
  intros prompt. unfold run, generate_query_endpoint, bind, outbound. fold prompt.
  cbn [calls init app]. unfold with_http_errors.
  destruct (generate w prompt) as [msg | answer] eqn:Eg.
  { eexists. split; [reflexivity|]. reflexivity. }
  destruct (completion_text answer) as [text | e] eqn:Ec; cbn [obind].
  - destruct text as [| b | n | s | items | members]; cbn [py_strip]; unfold lift;
      (eexists; split; [reflexivity|]);
      try (exists answer; eexists; split; [reflexivity|]; split; [exact Ec|];
           intros s'; discriminate).
    split; [apply strip_trimmed|]. exists answer, s. auto.
  - destruct (completion_text_raises answer e Ec) as [-> | [-> | ->]];
      unfold raise, lift; (eexists; split; [reflexivity|]); cbn beta iota; eauto.
Qed.

Example generate_query_strips :
  run (generate_query_endpoint blank_world (lit "root growth"))
  = (Returned (lit "(roots[TIAB])"),
     [CallGenerate (query_prompt_prefix ++ lit "root growth" ++ query_prompt_suffix)]).
Proof. reflexivity. Qed.

(** An answer without candidates gives status 500; an answer that is
    [null] raises [TypeError], and a text that is [null]
    [AttributeError]. *)
Example generate_query_errors :
  fst (run (generate_query_endpoint (generating (JObject [(lit "candidates", JArray [])]))
             (lit "root growth")))
  = Raised (HTTPException 500) /\
  fst (run (generate_query_endpoint (generating JNull) (lit "root growth")))
  = Raised TypeError /\
  fst (run (generate_query_endpoint (generating (completion JNull)) (lit "root growth")))
  = Raised AttributeError /\
  fst (run (generate_query_endpoint silent_failure (lit "root growth")))
  = Raised (HTTPException 503).
Proof. repeat split. Qed.
